(** * ML-service: the LightGBM price / sales predictor

    A shallow embedding of [scripts/lightGBM_model.py].  The class
    [LightGBMPredictor] and the command line entry point [main] are
    translated function by function.  The pandas operations the script
    relies on (column lookup, boolean-mask filtering, [quantile],
    [dropna], [astype]) are written out on a small model of data frames;
    LightGBM, pickle, json and the CSV reader are taken as parameters.

    Conventions of the model
    - a Python float is an exact rational ([Q]); [NaN] is a separate cell;
    - a raised exception is an [exn] value carrying the class and [str(e)];
    - the process state ([Proc]) holds the predictor object, the model
      directories, both output streams and the list of library / file
      system calls made so far. *)

From Stdlib Require Import QArith Qround Lqa Sorted Ascii String.
From stdpp Require Import gmap strings list pretty.

(** ** Python exceptions and results *)

Inductive exn_kind :=
  | KeyError | ValueError | TypeError | IndexError
  | FileNotFoundError | FileExistsError
  | UnpicklingError | JSONDecodeError | ParserError | LightGBMError.

(** [Exc k msg] is an instance of a subclass of [Exception] whose [str] is
    [msg]; [SystemExit] derives from [BaseException] only. *)
Inductive exn :=
  | Exc (k : exn_kind) (msg : string)
  | SystemExit (code : Z).

Definition is_Exception (e : exn) : bool :=
  match e with Exc _ _ => true | SystemExit _ => false end.

Definition str_exn (e : exn) : string :=
  match e with Exc _ msg => msg | SystemExit _ => EmptyString end.

Inductive outcome (A : Type) :=
  | Ret (a : A)
  | Raise (e : exn).
Arguments Ret {A} a.
Arguments Raise {A} e.

Global Instance outcome_ret : MRet outcome := λ A a, Ret a.
Global Instance outcome_bind : MBind outcome := λ A B f m,
  match m with Ret a => f a | Raise e => Raise e end.

(** ** Python [repr] of strings and lists of strings *)

Definition dq : string := String "034"%char EmptyString.
Definition sq : string := String "039"%char EmptyString.

Fixpoint string_forallb (p : ascii → bool) (s : string) : bool :=
  match s with
  | EmptyString => true
  | String c s' => p c && string_forallb p s'
  end.

Fixpoint string_existsb (p : ascii → bool) (s : string) : bool :=
  match s with
  | EmptyString => false
  | String c s' => p c || string_existsb p s'
  end.

(** Printable ASCII other than the backslash: [repr] copies such
    characters unchanged. *)
Definition plain_char (c : ascii) : bool :=
  let n := nat_of_ascii c in
  (32 <=? n)%nat && (n <=? 126)%nat && negb (n =? 92)%nat.

Definition is_sq (c : ascii) : bool := (nat_of_ascii c =? 39)%nat.
Definition is_dq (c : ascii) : bool := (nat_of_ascii c =? 34)%nat.

Fixpoint escape_sq (s : string) : string :=
  match s with
  | EmptyString => EmptyString
  | String c s' =>
      if is_sq c then String "092"%char (String c (escape_sq s'))
      else String c (escape_sq s')
  end.

Fixpoint join (sep : string) (l : list string) : string :=
  match l with
  | [] => EmptyString
  | [x] => x
  | x :: l' => x +:+ sep +:+ join sep l'
  end.

(** ** Data frames *)

Inductive cell :=
  | CNum (q : Q)
  | CNaN
  | CBool (b : bool)
  | CStr (s : string).

(** A frame: the column labels in order, the labels whose dtype is
    [category], and the rows (one cell per column). *)
Record DataFrame := mkDF {
  columns : list string;
  category_cols : list string;
  rows : list (list cell)
}.

(** ** Library interface

    What the script calls and the repository does not define.  A library
    call that fails raises a subclass of [Exception]. *)

Inductive libres (A : Type) :=
  | LOk (a : A)
  | LErr (k : exn_kind) (msg : string).
Arguments LOk {A} a.
Arguments LErr {A} k msg.

Definition of_lib {A} (r : libres A) : outcome A :=
  match r with LOk a => Ret a | LErr k msg => Raise (Exc k msg) end.

Record Lib := {
  (** interpreter: [repr] outside plain ASCII, [int(s)], [str(n)],
      [format(x, '.2f')] *)
  repr_other : string → string;
  int_of_str : string → option Z;
  str_int : Z → string;
  fmt_2f : Q → string;
  (** pandas: [str] of an [Index]; [pd.read_csv(path)] *)
  index_str : list string → string;
  read_csv : string → libres DataFrame;
  (** json: [dumps] of a float and of a str (with its quotes); [loads] of
      a flat object, [None] standing for [JSONDecodeError] *)
  json_float : Q → string;
  json_str : string → string;
  json_loads : string → option (list (string * cell));
  (** LightGBM: a trained [Booster], [lgb.train] on the two data sets
      (features, labels, categorical names), [Booster.predict],
      [best_iteration] and [best_score['valid']['rmse']] *)
  Booster : Type;
  lgb_train : DataFrame → list cell → list string →
              DataFrame → list cell → libres Booster;
  booster_predict : Booster → DataFrame → libres (list Q);
  best_iteration : Booster → Z;
  best_score : Booster → Q
}.

Section Pandas.

Context (L : Lib).

(** [repr(s)] for a [str]: single quotes unless the text holds a single
    quote and no double quote.  Texts with other characters go through
    [repr_other]. *)
Definition py_repr (s : string) : string :=
  if string_forallb plain_char s then
    if string_existsb is_sq s && negb (string_existsb is_dq s)
    then dq +:+ s +:+ dq
    else sq +:+ escape_sq s +:+ sq
  else repr_other L s.

(** [repr] of a list of [str]. *)
Definition py_repr_list (l : list string) : string :=
  "[" +:+ join ", " (py_repr <$> l) +:+ "]".

Definition nrows (df : DataFrame) : nat := length (rows df).

Definition has_col (df : DataFrame) (c : string) : bool :=
  bool_decide (c ∈ columns df).

Fixpoint col_index (cols : list string) (c : string) : option nat :=
  match cols with
  | [] => None
  | c' :: cols' =>
      if decide (c' = c) then Some 0%nat else S <$> col_index cols' c
  end.

Definition cell_at (i : nat) (row : list cell) : cell := default CNaN (row !! i).

(** [df[c]]: the column as a series; [KeyError: 'c'] when absent. *)
Definition series (df : DataFrame) (c : string)
  : outcome (list cell) :=
  match col_index (columns df) c with
  | Some i => Ret (cell_at i <$> rows df)
  | None => Raise (Exc KeyError (py_repr c))
  end.

(** [df[mask]] with a boolean series: the rows whose flag is set, in
    order; labels and dtypes are kept. *)
Fixpoint mask_rows (mask : list bool) (rs : list (list cell)) : list (list cell) :=
  match mask, rs with
  | b :: mask', r :: rs' => if b then r :: mask_rows mask' rs' else mask_rows mask' rs'
  | _, _ => []
  end.

Definition filter_mask (df : DataFrame) (mask : list bool) : DataFrame :=
  mkDF (columns df) (category_cols df) (mask_rows mask (rows df)).

(** ** [Series.quantile] (linear interpolation, missing values skipped) *)

Fixpoint insert_sorted (x : Q) (l : list Q) : list Q :=
  match l with
  | [] => [x]
  | y :: l' => if Qle_bool x y then x :: l else y :: insert_sorted x l'
  end.

Definition sort_Q (l : list Q) : list Q := foldr insert_sorted [] l.

(** The numeric values of a series, or [None] when a cell is not numeric. *)
Fixpoint numeric_values (s : list cell) : option (list Q) :=
  match s with
  | [] => Some []
  | CNum q :: s' => cons q <$> numeric_values s'
  | CNaN :: s' => numeric_values s'
  | _ :: _ => None
  end.

Definition interpolate (sorted : list Q) (q : Q) : cell :=
  match sorted with
  | [] => CNaN
  | _ =>
      let pos := (q * inject_Z (Z.of_nat (length sorted - 1)))%Q in
      let lo := Z.to_nat (Qfloor pos) in
      let frac := (pos - inject_Z (Qfloor pos))%Q in
      let vlo := default 0%Q (sorted !! lo) in
      let vhi := default vlo (sorted !! S lo) in
      CNum (Qred (vlo + frac * (vhi - vlo)))
  end.

Definition quantile (s : list cell) (q : Q) : outcome cell :=
  if negb (Qle_bool 0 q && Qle_bool q 1) then
    Raise (Exc ValueError "percentiles should all be in the interval [0, 1]")
  else
    match numeric_values s with
    | None => Raise (Exc TypeError "unsupported operand type(s) for quantile")
    | Some vs => Ret (interpolate (sort_Q vs) q)
    end.

(** Element-wise [>=] and [<=] of a numeric series against a scalar;
    every comparison with [NaN] is [False]. *)
Definition cell_ge (x bound : cell) : bool :=
  match x, bound with
  | CNum a, CNum b => Qle_bool b a
  | _, _ => false
  end.

Definition cell_le (x bound : cell) : bool :=
  match x, bound with
  | CNum a, CNum b => Qle_bool a b
  | _, _ => false
  end.

(** ** [remove_outliers] *)

(** One turn of the loop body: both bounds are taken on the frame [df]
    given to this turn, then [df] is replaced by the rows within them. *)
Definition remove_outliers_step (lower_quantile upper_quantile : Q) (df : DataFrame) (col : string)
  : outcome DataFrame :=
  s ← series df col;
  lower_bound ← quantile s lower_quantile;
  s ← series df col;
  upper_bound ← quantile s upper_quantile;
  s1 ← series df col;
  s2 ← series df col;
  mret (filter_mask df
          (zip_with andb ((λ x, cell_ge x lower_bound) <$> s1)
                         ((λ x, cell_le x upper_bound) <$> s2))).

Fixpoint remove_outliers (df : DataFrame)
    (cols : list string) (lower_quantile upper_quantile : Q) : outcome DataFrame :=
  match cols with
  | [] => Ret df
  | col :: cols' =>
      df' ← remove_outliers_step lower_quantile upper_quantile df col;
      remove_outliers df' cols' lower_quantile upper_quantile
  end.

(** ** [dropna(subset=...)] *)

Definition is_na (c : cell) : bool :=
  match c with CNaN => true | _ => false end.

(** Whether a row has a missing value in one of the columns at [idx]. *)
Definition row_has_na (idx : list nat) (row : list cell) : bool :=
  existsb (λ i, is_na (cell_at i row)) idx.

(** [df.dropna(subset=subset)]: a [KeyError] listing the labels of
    [subset] that are not columns; otherwise the rows with no missing
    value in any of them. *)
Definition dropna (df : DataFrame) (subset : list string) : outcome DataFrame :=
  match filter (λ c, c ∉ columns df) subset with
  | [] =>
      let idx := omap (col_index (columns df)) subset in
      Ret (mkDF (columns df) (category_cols df)
             (filter (λ row, row_has_na idx row = false) (rows df)))
  | missing => Raise (Exc KeyError (py_repr_list missing))
  end.

(** ** [df[keys]] with a list of labels *)

Definition take_cells (idx : list nat) (row : list cell) : list cell :=
  (λ i, cell_at i row) <$> idx.

Definition select_columns (df : DataFrame) (keys : list string) : outcome DataFrame :=
  match filter (λ c, c ∉ columns df) keys with
  | [] =>
      Ret (mkDF keys (filter (λ c, c ∈ keys) (category_cols df))
             (take_cells (omap (col_index (columns df)) keys) <$> rows df))
  | missing =>
      if (length missing =? length keys)%nat then
        Raise (Exc KeyError
                 (py_repr ("None of [" +:+ index_str L keys +:+ "] are in the [columns]")))
      else
        Raise (Exc KeyError
                 (py_repr (py_repr_list (remove_dups missing) +:+ " not in index")))
  end.

(** ** Column assignment and [astype] *)

(** [df[c] = values]: the column keeps its place when it exists and is
    appended otherwise; its dtype is that of the new values. *)
Definition set_column (df : DataFrame) (c : string) (values : list cell) : DataFrame :=
  match col_index (columns df) c with
  | Some i =>
      mkDF (columns df) (filter (λ c', c' ≠ c) (category_cols df))
           (zip_with (λ row v, <[i:=v]> row) (rows df) values)
  | None =>
      mkDF (columns df ++ [c]) (category_cols df)
           (zip_with (λ row v, row ++ [v]) (rows df) values)
  end.

(** One value through [astype(int)]: floats are truncated toward zero,
    booleans become 0 / 1, texts go through [int]. *)
Definition cell_to_int (c : cell) : outcome cell :=
  match c with
  | CNum q => Ret (CNum (inject_Z (Z.quot (Qnum q) (Zpos (Qden q)))))
  | CBool b => Ret (CNum (if b then 1 else 0))
  | CNaN =>
      Raise (Exc ValueError "Cannot convert non-finite values (NA or inf) to integer")
  | CStr s =>
      match int_of_str L s with
      | Some z => Ret (CNum (inject_Z z))
      | None =>
          Raise (Exc ValueError
                   ("invalid literal for int() with base 10: " +:+ py_repr s))
      end
  end.

Fixpoint astype_int (s : list cell) : outcome (list cell) :=
  match s with
  | [] => Ret []
  | c :: s' => c' ← cell_to_int c; r ← astype_int s'; mret (c' :: r)
  end.

(** [df[c] = df[c].astype(int)] *)
Definition assign_astype_int (df : DataFrame) (c : string) : outcome DataFrame :=
  s ← series df c;
  s' ← astype_int s;
  mret (set_column df c s').

(** [df[c] = df[c].astype('category')]: the values stay, the dtype of the
    column becomes [category]. *)
Definition assign_astype_category (df : DataFrame) (c : string) : outcome DataFrame :=
  s ← series df c;
  mret (mkDF (columns df) (c :: filter (λ c', c' ≠ c) (category_cols df)) (rows df)).

(** [pd.DataFrame([record])] for a flat record: one row, the keys as
    column labels in their order. *)
Definition frame_of_record (record : list (string * cell)) : DataFrame :=
  mkDF (record.*1) [] [record.*2].

End Pandas.

(** ** Process state *)

(** What a file of a model directory deserialises to: a pickled booster,
    a JSON object of string lists, or anything else. *)
Inductive content (B : Type) :=
  | Pickled (b : B)
  | SchemaDoc (doc : gmap string (list string))
  | Unreadable.
Arguments Pickled {B} b.
Arguments SchemaDoc {B} doc.
Arguments Unreadable {B}.

Inductive node (B : Type) :=
  | File
  | Dir (entries : gmap string (content B)).
Arguments File {B}.
Arguments Dir {B} entries.

Inductive event :=
  | EMakedirs (d : string)
  | EReadCsv (path : string)
  | EOpenRead (d name : string)
  | EOpenWrite (d name : string)
  | ELgbTrain
  | EBoosterPredict.

Record Predictor (B : Type) := mkPredictor {
  model_dir : string;
  price_model : option B;
  sales_model : option B;
  feature_names : option (list string);
  categorical_features : option (list string)
}.
Arguments mkPredictor {B}.
Arguments model_dir {B}.
Arguments price_model {B}.
Arguments sales_model {B}.
Arguments feature_names {B}.
Arguments categorical_features {B}.

Record Proc (B : Type) := mkProc {
  self : Predictor B;
  fs : gmap string (node B);
  out : list string;
  err : list string;
  trace : list event
}.
Arguments mkProc {B}.
Arguments self {B}.
Arguments fs {B}.
Arguments out {B}.
Arguments err {B}.
Arguments trace {B}.

(** A process that has just started on the file system [files]. *)
Definition boot {B} (files : gmap string (node B)) : Proc B :=
  mkProc (mkPredictor EmptyString None None None None) files [] [] [].

Record Metrics := mkMetrics {
  price_best_iteration : Z;
  price_best_score : Q;
  sales_best_iteration : Z;
  sales_best_score : Q
}.

Record Prediction := mkPrediction {
  predicted_price : Q;
  predicted_sales : Q
}.

Inductive Action := Train | Predict.

(** The parsed command line. *)
Record Args := mkArgs {
  action : Action;
  train_data : string;
  val_data : option string;
  arg_model_dir : string
}.

Section LightGBMPredictor.

Context (L : Lib).

Abbreviation B := (Booster L).

(** ** The monad of the script: process state and exceptions *)

Definition M (A : Type) : Type := Proc B → outcome A * Proc B.

#[global] Instance M_ret : MRet M := λ A a st, (Ret a, st).
#[global] Instance M_bind : MBind M := λ A C f m st,
  match m st with
  | (Ret a, st') => f a st'
  | (Raise e, st') => (Raise e, st')
  end.

Definition raise {A} (e : exn) : M A := λ st, (Raise e, st).

(** A pure computation that may raise. *)
Definition lift {A} (r : outcome A) : M A := λ st, (r, st).

(** [try: body  except <classes accepted by handler>: ...]; an exception
    for which [handler] gives [None] propagates. *)
Definition try_except {A} (body : M A) (handler : exn → option (M A)) : M A :=
  λ st,
    match body st with
    | (Ret a, st') => (Ret a, st')
    | (Raise e, st') =>
        match handler e with
        | Some h => h st'
        | None => (Raise e, st')
        end
    end.

Definition get_self : M (Predictor B) := λ st, (Ret (self st), st).

Definition set_self (p : Predictor B) : M unit :=
  λ st, (Ret (), mkProc p (fs st) (out st) (err st) (trace st)).

(** The calls to the file system and to the libraries are recorded in
    [trace], in the order they are made. *)
Definition record_event (e : event) (st : Proc B) : Proc B :=
  mkProc (self st) (fs st) (out st) (err st) (trace st ++ [e]).

Definition set_fs (files : gmap string (node B)) (st : Proc B) : Proc B :=
  mkProc (self st) files (out st) (err st) (trace st).

(** [print(s)]: one more line on stdout. *)
Definition print (s : string) : M unit :=
  λ st, (Ret (), mkProc (self st) (fs st) (out st ++ [s]) (err st) (trace st)).

(** [sys.stderr.write(s + "\n")] *)
Definition stderr_write (s : string) : M unit :=
  λ st, (Ret (), mkProc (self st) (fs st) (out st) (err st ++ [s]) (trace st)).

(** [sys.exit(code)] *)
Definition sys_exit {A} (code : Z) : M A := raise (SystemExit code).

(** The closure [log_info] of [train] and of [main]. *)
Definition log_info (msg : string) : M unit :=
  stderr_write msg;;
  print ("INFO: " +:+ msg).

(** ** File system and serialisation *)

(** [os.makedirs(d, exist_ok=True)] *)
Definition makedirs (d : string) : M unit :=
  λ st,
    let st := record_event (EMakedirs d) st in
    match fs st !! d with
    | None => (Ret (), set_fs (<[d := Dir ∅]> (fs st)) st)
    | Some (Dir _) => (Ret (), st)
    | Some File =>
        (Raise (Exc FileExistsError ("[Errno 17] File exists: " +:+ py_repr L d)), st)
    end.

Definition no_such_file (d name : string) : exn :=
  Exc FileNotFoundError
    ("[Errno 2] No such file or directory: " +:+ py_repr L (d +:+ "/" +:+ name)).

(** [open(os.path.join(d, name), 'rb')] (or ['r']) and reading it whole. *)
Definition open_read (d name : string) : M (content B) :=
  λ st,
    let st := record_event (EOpenRead d name) st in
    match fs st !! d with
    | Some (Dir entries) =>
        match entries !! name with
        | Some c => (Ret c, st)
        | None => (Raise (no_such_file d name), st)
        end
    | _ => (Raise (no_such_file d name), st)
    end.

(** [open(os.path.join(d, name), 'wb')] (or ['w']) and writing [c]. *)
Definition open_write (d name : string) (c : content B) : M unit :=
  λ st,
    let st := record_event (EOpenWrite d name) st in
    match fs st !! d with
    | Some (Dir entries) =>
        (Ret (), set_fs (<[d := Dir (<[name := c]> entries)]> (fs st)) st)
    | _ => (Raise (no_such_file d name), st)
    end.

Definition pickle_load (c : content B) : M B :=
  match c with
  | Pickled b => mret b
  | _ => raise (Exc UnpicklingError "invalid load key")
  end.

Definition json_load (c : content B) : M (gmap string (list string)) :=
  match c with
  | SchemaDoc doc => mret doc
  | _ => raise (Exc JSONDecodeError "Expecting value: line 1 column 1 (char 0)")
  end.

(** [doc[key]] on a dict *)
Definition dict_get (doc : gmap string (list string)) (key : string) : M (list string) :=
  match doc !! key with
  | Some v => mret v
  | None => raise (Exc KeyError (py_repr L key))
  end.

(** ** [LightGBMPredictor.__init__] *)

Definition __init__ (model_dir : string) : M unit :=
  set_self (mkPredictor model_dir None None None None);;
  makedirs model_dir.

(** ** [_prepare_features] *)

Definition categorical_feature_names : list string :=
  ["brand"; "region"; "category"; "seller"; "day_of_week"; "month"; "quarter"].

Definition numerical_feature_names : list string :=
  ["price"; "original_price"; "discount_percentage"; "stock_level";
   "customer_rating"; "review_count"; "delivery_days"; "is_weekend"; "is_holiday";
   "sales_quantity_lag_1"; "price_lag_1"; "sales_quantity_lag_3"; "price_lag_3";
   "sales_quantity_lag_7"; "price_lag_7"; "sales_quantity_rolling_mean_3";
   "price_rolling_mean_3"; "sales_quantity_rolling_mean_7"; "price_rolling_mean_7"].

(** The loop [for cat_feat in cats: if cat_feat in df.columns: ...]. *)
Fixpoint cast_categories (df : DataFrame) (cats : list string) : outcome DataFrame :=
  match cats with
  | [] => Ret df
  | cat_feat :: cats' =>
      df' ← (if has_col df cat_feat then assign_astype_category L df cat_feat
             else Ret df);
      cast_categories df' cats'
  end.

(** The frame [df] is updated in place, so the result also carries the
    frame as the caller sees it afterwards (first component); then come
    the feature matrix, the feature names and the categorical names. *)
Definition _prepare_features (df : DataFrame)
  : outcome (DataFrame * DataFrame * list string * list string) :=
  let categorical_features := categorical_feature_names in
  let numerical_features := numerical_feature_names in
  let feature_names := numerical_features ++ categorical_features in
  df ← assign_astype_int L df "is_weekend";
  df ← assign_astype_int L df "is_holiday";
  df ← cast_categories df categorical_features;
  X ← select_columns L df feature_names;
  mret (df, X, feature_names, categorical_features).

(** ** [validate_data] *)

Definition required_columns : list string :=
  ["price_target"; "sales_target"; "brand"; "region"; "category"; "seller";
   "price"; "original_price"].

Definition validate_data (df : DataFrame) : M bool :=
  let missing_columns := filter (λ col, col ∉ columns df) required_columns in
  match missing_columns with
  | _ :: _ =>
      print ("Отсутствуют обязательные столбцы: " +:+ py_repr_list L missing_columns);;
      mret false
  | [] =>
      if (nrows df <? 10)%nat then
        print "Недостаточно данных для обучения";;
        mret false
      else mret true
  end.

(** ** [save_models] and [load_models] *)

Definition save_models : M unit :=
  me ← get_self;
  match price_model me with
  | Some m => open_write (model_dir me) "price_model.pkl" (Pickled m)
  | None => mret ()
  end;;
  match sales_model me with
  | Some m => open_write (model_dir me) "sales_model.pkl" (Pickled m)
  | None => mret ()
  end;;
  match feature_names me, categorical_features me with
  | Some names, Some cats =>
      open_write (model_dir me) "feature_info.json"
        (SchemaDoc (<["categorical_features" := cats]>
                      (<["feature_names" := names]> ∅)))
  | _, _ => mret ()
  end.

(** The [try] block of [load_models]; the fields of [self] are assigned
    one by one, so those read before a failure stay assigned. *)
Definition load_models_body : M bool :=
  me ← get_self;
  c ← open_read (model_dir me) "price_model.pkl";
  m ← pickle_load c;
  set_self (mkPredictor (model_dir me) (Some m) (sales_model me)
              (feature_names me) (categorical_features me));;
  me ← get_self;
  c ← open_read (model_dir me) "sales_model.pkl";
  m ← pickle_load c;
  set_self (mkPredictor (model_dir me) (price_model me) (Some m)
              (feature_names me) (categorical_features me));;
  me ← get_self;
  c ← open_read (model_dir me) "feature_info.json";
  feature_info ← json_load c;
  names ← dict_get feature_info "feature_names";
  set_self (mkPredictor (model_dir me) (price_model me) (sales_model me)
              (Some names) (categorical_features me));;
  me ← get_self;
  cats ← dict_get feature_info "categorical_features";
  set_self (mkPredictor (model_dir me) (price_model me) (sales_model me)
              (feature_names me) (Some cats));;
  mret true.

Definition load_models : M bool :=
  try_except load_models_body
    (λ e, if is_Exception e
          then Some (print ("Error loading models: " +:+ str_exn e);; mret false)
          else None).

(** ** [json.dumps] of the three result objects *)

Definition jkey (k : string) : string := dq +:+ k +:+ dq +:+ ": ".

Definition dumps_model_metrics (it : Z) (score : Q) : string :=
  "{" +:+ jkey "best_iteration" +:+ str_int L it +:+ ", "
      +:+ jkey "best_score" +:+ json_float L score +:+ "}".

Definition dumps_metrics (m : Metrics) : string :=
  "{" +:+ jkey "price_model"
      +:+ dumps_model_metrics (price_best_iteration m) (price_best_score m) +:+ ", "
      +:+ jkey "sales_model"
      +:+ dumps_model_metrics (sales_best_iteration m) (sales_best_score m) +:+ "}".

Definition dumps_prediction (p : Prediction) : string :=
  "{" +:+ jkey "predicted_price" +:+ json_float L (predicted_price p) +:+ ", "
      +:+ jkey "predicted_sales" +:+ json_float L (predicted_sales p) +:+ "}".

Definition dumps_error (msg : string) : string :=
  "{" +:+ jkey "error" +:+ json_str L msg +:+ "}".

(** ** [train] *)

Definition pd_read_csv (path : string) : M DataFrame :=
  λ st, (of_lib (read_csv L path), record_event (EReadCsv path) st).

Definition lgb_train_call (X : DataFrame) (y : list cell) (cats : list string)
    (X_val : DataFrame) (y_val : list cell) : M B :=
  λ st, (of_lib (lgb_train L X y cats X_val y_val), record_event ELgbTrain st).

Definition target_columns : list string := ["price_target"; "sales_target"].

(** Lines 122-127: outlier removal on the training frame, then the rows
    with a missing target leave both frames. *)
Definition train_frames (train_df val_df : DataFrame) : outcome (DataFrame * DataFrame) :=
  train_df ← remove_outliers L train_df target_columns (1 # 100) (99 # 100);
  train_df ← dropna L train_df target_columns;
  val_df ← dropna L val_df target_columns;
  mret (train_df, val_df).

Definition invalid_data_msg : string :=
  "Некорректные обучающие или валидационные данные".

Definition train (train_data_path val_data_path : string) : M Metrics :=
  log_info ("Загрузка обучающих данных из " +:+ train_data_path);;
  train_df ← pd_read_csv train_data_path;
  log_info ("Загрузка валидационных данных из " +:+ val_data_path);;
  val_df ← pd_read_csv val_data_path;
  train_ok ← validate_data train_df;
  all_ok ← (if train_ok : bool then validate_data val_df else mret false);
  (if negb all_ok then
     log_info ("ОШИБКА: " +:+ invalid_data_msg);;
     raise (Exc ValueError invalid_data_msg)
   else mret ());;
  '(train_df, val_df) ← lift (train_frames train_df val_df);
  '(train_df, X_train, names, cats) ← lift (_prepare_features train_df);
  me ← get_self;
  set_self (mkPredictor (model_dir me) (price_model me) (sales_model me)
              (Some names) (Some cats));;
  y_price_train ← lift (series L train_df "price_target");
  y_sales_train ← lift (series L train_df "sales_target");
  '(val_df, X_val, _, _) ← lift (_prepare_features val_df);
  y_price_val ← lift (series L val_df "price_target");
  y_sales_val ← lift (series L val_df "sales_target");
  log_info ("Обучение на " +:+ str_int L (Z.of_nat (nrows X_train)) +:+ " примерах с "
            +:+ str_int L (Z.of_nat (length names)) +:+ " признаками");;
  log_info ("Валидация на " +:+ str_int L (Z.of_nat (nrows X_val)) +:+ " примерах");;
  log_info "Обучение модели предсказания цены...";;
  m ← lgb_train_call X_train y_price_train cats X_val y_price_val;
  me ← get_self;
  set_self (mkPredictor (model_dir me) (Some m) (sales_model me)
              (feature_names me) (categorical_features me));;
  log_info "Обучение модели предсказания продаж...";;
  m ← lgb_train_call X_train y_sales_train cats X_val y_sales_val;
  me ← get_self;
  set_self (mkPredictor (model_dir me) (price_model me) (Some m)
              (feature_names me) (categorical_features me));;
  save_models;;
  me ← get_self;
  match price_model me, sales_model me with
  | Some pm, Some sm =>
      let metrics :=
        mkMetrics (best_iteration L pm) (best_score L pm)
                  (best_iteration L sm) (best_score L sm) in
      log_info "Обучение завершено. Метрики моделей:";;
      log_info ("Модель цены - Лучшая итерация: "
                +:+ str_int L (price_best_iteration metrics)
                +:+ ", Лучший RMSE: " +:+ fmt_2f L (price_best_score metrics));;
      log_info ("Модель продаж - Лучшая итерация: "
                +:+ str_int L (sales_best_iteration metrics)
                +:+ ", Лучший RMSE: " +:+ fmt_2f L (sales_best_score metrics));;
      print (dumps_metrics metrics);;
      mret metrics
  | _, _ =>
      raise (Exc TypeError "'NoneType' object has no attribute 'best_iteration'")
  end.

(** ** [predict] *)

Definition booster_predict_call (m : B) (X : DataFrame) : M (list Q) :=
  λ st, (of_lib (booster_predict L m X), record_event EBoosterPredict st).

(** [a[0]] on the array of predictions *)
Definition first_prediction (a : list Q) : M Q :=
  match a with
  | x :: _ => mret x
  | [] => raise (Exc IndexError "index 0 is out of bounds for axis 0 with size 0")
  end.

Definition models_unavailable_msg : string := "Models not trained or loaded properly".

(** Lines 285-300: from the record to the matrix given to the models. *)
Definition predict_features (me : Predictor B) (product_data : list (string * cell))
  : outcome DataFrame :=
  let df := frame_of_record product_data in
  df ← (if has_col df "is_weekend" then assign_astype_int L df "is_weekend" else Ret df);
  df ← (if has_col df "is_holiday" then assign_astype_int L df "is_holiday" else Ret df);
  cats ← match categorical_features me with
         | Some cats => Ret cats
         | None => Raise (Exc TypeError "'NoneType' object is not iterable")
         end;
  df ← cast_categories df cats;
  names ← match feature_names me with
          | Some names => Ret names
          | None => Raise (Exc KeyError "None")
          end;
  select_columns L df names.

Definition predict (product_data : list (string * cell)) : M Prediction :=
  me ← get_self;
  (if bool_decide (price_model me = None ∨ sales_model me = None) then
     loaded ← load_models;
     if negb loaded
     then raise (Exc ValueError models_unavailable_msg) else mret ()
   else mret ());;
  me ← get_self;
  X ← lift (predict_features me product_data);
  match price_model me, sales_model me with
  | Some pm, Some sm =>
      a ← booster_predict_call pm X;
      price_pred ← first_prediction a;
      a ← booster_predict_call sm X;
      sales_pred ← first_prediction a;
      mret (mkPrediction price_pred sales_pred)
  | _, _ => raise (Exc TypeError "'NoneType' object has no attribute 'predict'")
  end.

(** ** [main] *)

Definition py_json_loads (s : string) : M (list (string * cell)) :=
  match json_loads L s with
  | Some record => mret record
  | None => raise (Exc JSONDecodeError "Expecting value: line 1 column 1 (char 0)")
  end.

Definition str_action (a : Action) : string :=
  match a with Train => "train" | Predict => "predict" end.

(** The [try] block of the [predict] branch. *)
Definition main_predict_body (args : Args) : M unit :=
  product_data ← py_json_loads (train_data args);
  log_info "Запуск предсказания для данных продукта";;
  prediction ← predict product_data;
  log_info ("Результат предсказания: цена=" +:+ fmt_2f L (predicted_price prediction)
            +:+ ", продажи=" +:+ fmt_2f L (predicted_sales prediction));;
  print (dumps_prediction prediction).

(** The two [except] clauses, tried in order. *)
Definition main_predict_handler (e : exn) : option (M unit) :=
  match e with
  | Exc JSONDecodeError _ =>
      Some (log_info "ОШИБКА: некорректный формат JSON для предсказания";;
            print (dumps_error "Invalid JSON input for prediction");;
            sys_exit 1)
  | Exc _ _ =>
      Some (log_info ("ОШИБКА при предсказании: " +:+ str_exn e);;
            print (dumps_error (str_exn e));;
            sys_exit 1)
  | SystemExit _ => None
  end.

(** The [predict] branch of [main]: the [try] statement. *)
Definition main_predict (args : Args) : M unit :=
  try_except (main_predict_body args) main_predict_handler.

Definition main (args : Args) : M unit :=
  log_info ("Запуск с параметрами: action=" +:+ str_action (action args)
            +:+ ", data=" +:+ train_data args
            +:+ ", model_dir=" +:+ arg_model_dir args);;
  __init__ (arg_model_dir args);;
  match action args with
  | Train =>
      match val_data args with
      | None | Some EmptyString =>
          log_info "ОШИБКА: необходимо указать путь к валидационным данным с помощью --val-data";;
          sys_exit 1
      | Some val_path =>
          log_info ("Запуск обучения моделей с данными: " +:+ train_data args
                    +:+ " и " +:+ val_path);;
          metrics ← train (train_data args) val_path;
          mret ()
      end
  | Predict => main_predict args
  end.

(** Exit status of the interpreter for the result of [main]. *)
Definition exit_code (r : outcome unit) : Z :=
  match r with
  | Ret _ => 0
  | Raise (SystemExit code) => code
  | Raise (Exc _ _) => 1
  end.

End LightGBMPredictor.

(** * Predicates and reference formulations used in the statements *)

Definition is_numeric (c : cell) : bool :=
  match c with CNum _ | CNaN => true | _ => false end.

(** Column [c] of [df] is present and holds numbers or [NaN] only. *)
Definition numeric_col (df : DataFrame) (c : string) : Prop :=
  ∃ i, col_index (columns df) c = Some i ∧
       Forall (λ row, is_numeric (cell_at i row) = true) (rows df).


(** The bounds of one column taken on [df], and the rows of [df] within
    given bounds. *)
Definition column_bounds (L : Lib) (df : DataFrame) (col : string) (lq uq : Q)
  : outcome (cell * cell) :=
  s ← series L df col;
  lo ← quantile s lq;
  hi ← quantile s uq;
  mret (lo, hi).

Definition keep_within (L : Lib) (df : DataFrame) (col : string) (lo hi : cell)
  : outcome DataFrame :=
  s ← series L df col;
  mret (filter_mask df ((λ x, cell_ge x lo && cell_le x hi) <$> s)).

(** The other reading of the outlier filter, which the script does not
    implement: the bounds of both columns are taken on the frame as it
    was given, and a row stays when it is within both. *)
Definition remove_outliers_on_original (L : Lib) (df : DataFrame) (c1 c2 : string)
    (lq uq : Q) : outcome DataFrame :=
  '(lo1, hi1) ← column_bounds L df c1 lq uq;
  '(lo2, hi2) ← column_bounds L df c2 lq uq;
  df1 ← keep_within L df c1 lo1 hi1;
  keep_within L df1 c2 lo2 hi2.

(** ** A concrete library and concrete inputs for the examples *)

Definition sample_columns : list string :=
  numerical_feature_names ++ categorical_feature_names ++ target_columns.

(** A row whose numeric features are [x], categorical features ["a"],
    and targets [p] and [s]. *)
Definition sample_row (x p s : Z) : list cell :=
  replicate 19 (CNum (inject_Z x)) ++ replicate 7 (CStr "a")
    ++ [CNum (inject_Z p); CNum (inject_Z s)].

Definition sample_frame : DataFrame :=
  mkDF sample_columns []
    ((λ n, sample_row 1 (Z.of_nat n) (10 * Z.of_nat n)%Z) <$> seq 1 12).

(** The same rows and one more whose price target is missing. *)
Definition sample_val_frame : DataFrame :=
  mkDF sample_columns []
    (rows sample_frame ++ [replicate 19 (CNum 1) ++ replicate 7 (CStr "a")
                             ++ [CNaN; CNum 500]]).

(** All schema columns, and a missing value in [is_weekend]. *)
Definition nan_flag_frame : DataFrame :=
  mkDF sample_columns [] [ <[7%nat := CNaN]> (sample_row 1 1 1) ].

Definition sample_record : list (string * cell) :=
  zip (numerical_feature_names ++ categorical_feature_names)
      (replicate 19 (CNum 1) ++ replicate 7 (CStr "a")).

(** The same record without the key [price_lag_1]. *)
Definition partial_record : list (string * cell) :=
  filter (λ kv, kv.1 ≠ "price_lag_1") sample_record.

(** A booster is the constant it predicts. *)
Definition sample_lib : Lib := {|
  repr_other := λ s, sq +:+ s +:+ sq;
  int_of_str := λ _, None;
  str_int := λ z, pretty z;
  fmt_2f := λ _, "0.00";
  index_str := λ l, "Index(" +:+ join ", " l +:+ ")";
  read_csv := λ path,
    if decide (path = "data.csv") then LOk sample_frame
    else if decide (path = "val.csv") then LOk sample_val_frame
    else LErr FileNotFoundError "No such file or directory";
  json_float := λ _, "0.0";
  json_str := λ s, dq +:+ s +:+ dq;
  json_loads := λ s,
    if decide (s = "{}") then Some []
    else if decide (s = "{...}") then Some sample_record
    else if decide (s = "{partial}") then Some partial_record
    else None;
  Booster := Z;
  lgb_train := λ X y cats X_val y_val, LOk (Z.of_nat (nrows X));
  booster_predict := λ m X, LOk ((λ _, inject_Z m) <$> rows X);
  best_iteration := λ m, m;
  best_score := λ m, 0%Q
|}.

(** Five rows on which the two readings of the outlier filter differ. *)
Definition outlier_frame : DataFrame :=
  mkDF ["price_target"; "sales_target"] []
    [ [CNum 1; CNum 10]; [CNum 2; CNum 20]; [CNum 3; CNum 30];
      [CNum 4; CNum 40]; [CNum 5; CNum 50] ].

(** A frame without the column [price_target]. *)
Definition no_price_frame : DataFrame :=
  mkDF ["sales_target"] [] [ [CNum 1]; [CNum 2] ].


(** The three artifacts of a model directory can be read back: the two
    pickles deserialise and the JSON document has both schema keys. *)
Definition artifacts_ok {B} (files : gmap string (node B)) (d : string) : Prop :=
  ∃ entries pm sm doc names cats,
    files !! d = Some (Dir entries) ∧
    entries !! "price_model.pkl" = Some (Pickled pm) ∧
    entries !! "sales_model.pkl" = Some (Pickled sm) ∧
    entries !! "feature_info.json" = Some (SchemaDoc doc) ∧
    doc !! "feature_names" = Some names ∧
    doc !! "categorical_features" = Some cats.

(** A cell that [astype(int)] accepts. *)
Definition int_convertible (L : Lib) (c : cell) : Prop :=
  match c with
  | CNum _ | CBool _ => True
  | CNaN => False
  | CStr s => is_Some (int_of_str L s)
  end.

(** Column [c] of [df] is present and every cell of it converts to an
    integer (a boolean-like flag). *)
Definition flag_col (L : Lib) (df : DataFrame) (c : string) : Prop :=
  ∃ i, col_index (columns df) c = Some i ∧
       Forall (λ row, int_convertible L (cell_at i row)) (rows df).

Definition schema_feature_names : list string :=
  ["price"; "original_price"; "discount_percentage"; "stock_level";
   "customer_rating"; "review_count"; "delivery_days"; "is_weekend"; "is_holiday";
   "sales_quantity_lag_1"; "price_lag_1"; "sales_quantity_lag_3"; "price_lag_3";
   "sales_quantity_lag_7"; "price_lag_7"; "sales_quantity_rolling_mean_3";
   "price_rolling_mean_3"; "sales_quantity_rolling_mean_7"; "price_rolling_mean_7";
   "brand"; "region"; "category"; "seller"; "day_of_week"; "month"; "quarter"].

(** A new process on the file system [files], after the constructor of
    the predictor has run for the directory [d]. *)
Definition fresh_process (L : Lib) (files : gmap string (node (Booster L))) (d : string)
  : Proc (Booster L) :=
  (__init__ L d (boot files)).2.

(** The state in which the sample training run ends, started in a new
    process on an empty file system. *)
Abbreviation sample_trained :=
  (train sample_lib "data.csv" "val.csv" (fresh_process sample_lib ∅ "models")).



(** A process holding a trained bundle in memory, its model directory
    created and still empty. *)
Definition sample_bundle_state : Proc (Booster sample_lib) :=
  mkProc (mkPredictor "models" (Some 3%Z) (Some 4%Z)
            (Some schema_feature_names) (Some categorical_feature_names))
         {["models" := Dir ∅]} [] [] [].

(** ** The lines of stdout *)

(** What [log_info msg] prints. *)
Definition info_line (msg : string) : string := "INFO: " +:+ msg.




(** [validate_data] accepts the frame. *)
Definition valid_frame (df : DataFrame) : Prop :=
  filter (λ col, col ∉ columns df) required_columns = [] ∧ (nrows df <? 10)%nat = false.


(** ** Texts of error messages *)

(** A label that [repr] renders between single quotes, unchanged:
    printable ASCII without quotes or backslash. *)
Definition simple_char (c : ascii) : bool :=
  plain_char c && negb (is_sq c) && negb (is_dq c).

Definition simple_name (s : string) : bool := string_forallb simple_char s.

(** The text [s] contains the text [k]. *)
Definition contains (k s : string) : Prop := ∃ a b, s = a +:+ k +:+ b.

(** The message names the key [k]: it contains ['k']. *)
Definition names_key (msg k : string) : Prop := contains (sq +:+ k +:+ sq) msg.

(** What the handlers of the [predict] branch log and report for an
    exception of the [try] block. *)
Definition failure_log (e : exn) : string :=
  match e with
  | Exc JSONDecodeError _ => "ОШИБКА: некорректный формат JSON для предсказания"
  | _ => "ОШИБКА при предсказании: " +:+ str_exn e
  end.

Definition reported_message (e : exn) : string :=
  match e with
  | Exc JSONDecodeError _ => "Invalid JSON input for prediction"
  | _ => str_exn e
  end.

(** The first line [main] logs. *)
Definition startup_msg (args : Args) : string :=
  "Запуск с параметрами: action=" +:+ str_action (action args)
  +:+ ", data=" +:+ train_data args
  +:+ ", model_dir=" +:+ arg_model_dir args.

(** The process when [main] enters its [predict] branch: the first line
    is logged and the predictor constructed (so the model directory
    exists). *)
Definition predict_entry {B} (args : Args) (files : gmap string (node B)) : Proc B :=
  mkProc (mkPredictor (arg_model_dir args) None None None None)
         (match files !! arg_model_dir args with
          | None => <[arg_model_dir args := Dir ∅]> files
          | Some _ => files
          end)
         [info_line (startup_msg args)] [startup_msg args]
         [EMakedirs (arg_model_dir args)].



(** ** Further predicates *)

(** Column [c] of [df] is present and every cell of it is a number (no
    missing value, no text). *)
Definition number_col (df : DataFrame) (c : string) : Prop :=
  ∃ i, col_index (columns df) c = Some i ∧
       Forall (λ row, ∃ q, cell_at i row = CNum q) (rows df).

(** A frame with a missing price target in its second row. *)
Definition gap_frame : DataFrame :=
  mkDF ["price_target"] [] [ [CNum 1]; [CNaN]; [CNum 2]; [CNum 3] ].

(** The names of the three artifacts of a model directory. *)
Definition artifact_names : list string :=
  ["price_model.pkl"; "sales_model.pkl"; "feature_info.json"].

(** What [save_models] leaves under the name of each artifact, given
    what was there: the field of the predictor when it is set. *)
Definition saved_entry {B} (field : option (content B)) (old : option (content B))
  : option (content B) :=
  match field with Some c => Some c | None => old end.

(** The schema document [save_models] writes: only when both lists are
    set. *)
Definition schema_doc {B} (me : Predictor B) : option (content B) :=
  match feature_names me, categorical_features me with
  | Some names, Some cats =>
      Some (SchemaDoc (<["categorical_features" := cats]> (<["feature_names" := names]> ∅)))
  | _, _ => None
  end.


(** [model.predict(X)[0]]: the first value a booster predicts for [X]. *)
Definition predict_first (L : Lib) (m : Booster L) (X : DataFrame) : outcome Q :=
  a ← of_lib (booster_predict L m X);
  match a with
  | x :: _ => Ret x
  | [] => Raise (Exc IndexError "index 0 is out of bounds for axis 0 with size 0")
  end.

(** The two predictions for a record, by the models and the schema of
    the predictor [me]: both models are given the same matrix, the price
    model first. *)
Definition predict_with (L : Lib) (me : Predictor (Booster L)) (pm sm : Booster L)
    (record : list (string * cell)) : outcome Prediction :=
  X ← predict_features L me record;
  price_pred ← predict_first L pm X;
  sales_pred ← predict_first L sm X;
  Ret (mkPrediction price_pred sales_pred).

(** The predictor once [load_models] has read the artifacts of its
    directory. *)
Definition loaded_predictor {B} (d : string) (entries : gmap string (content B))
  : option (Predictor B) :=
  match entries !! "price_model.pkl", entries !! "sales_model.pkl",
        entries !! "feature_info.json" with
  | Some (Pickled pm), Some (Pickled sm), Some (SchemaDoc doc) =>
      match doc !! "feature_names", doc !! "categorical_features" with
      | Some names, Some cats =>
          Some (mkPredictor d (Some pm) (Some sm) (Some names) (Some cats))
      | _, _ => None
      end
  | _, _, _ => None
  end.

(** The predictor a model directory of the file system holds, when its
    three artifacts can be read. *)
Definition stored_predictor {B} (files : gmap string (node B)) (d : string)
  : option (Predictor B) :=
  match files !! d with
  | Some (Dir entries) => loaded_predictor d entries
  | _ => None
  end.

(** Column [c] of [df] is present and has no missing value. *)
Definition complete_col (df : DataFrame) (c : string) : Prop :=
  ∃ i, col_index (columns df) c = Some i ∧
       Forall (λ row, is_na (cell_at i row) = false) (rows df).



(** The bundle [save_models] writes for the models [pm] and [sm] and the
    schema of the script, over the entries [entries]. *)
Definition bundle_entries {B} (pm sm : B) (entries : gmap string (content B))
  : gmap string (content B) :=
  <["feature_info.json" :=
      SchemaDoc (<["categorical_features" := categorical_feature_names]>
                   (<["feature_names" := schema_feature_names]> ∅))]>
    (<["sales_model.pkl" := Pickled sm]> (<["price_model.pkl" := Pickled pm]> entries)).

(** The line [validate_data] prints for a frame it rejects. *)
Definition rejection_line (L : Lib) (df : DataFrame) : string :=
  match filter (λ col, col ∉ columns df) required_columns with
  | [] => "Недостаточно данных для обучения"
  | missing => "Отсутствуют обязательные столбцы: " +:+ py_repr_list L missing
  end.

#[global] Instance valid_frame_dec (df : DataFrame) : Decision (valid_frame df) :=
  and_dec _ _.

(** The frame [train] rejects: the training frame, or the validation
    frame when the training frame is valid. *)
Definition rejected_frame (train_df val_df : DataFrame) : DataFrame :=
  if decide (valid_frame train_df) then val_df else train_df.

(** The sample library with another CSV reader. *)
Definition csv_lib (csv : string → libres DataFrame) : Lib := {|
  repr_other := repr_other sample_lib;
  int_of_str := int_of_str sample_lib;
  str_int := str_int sample_lib;
  fmt_2f := fmt_2f sample_lib;
  index_str := index_str sample_lib;
  read_csv := csv;
  json_float := json_float sample_lib;
  json_str := json_str sample_lib;
  json_loads := json_loads sample_lib;
  Booster := Z;
  lgb_train := lgb_train sample_lib;
  booster_predict := booster_predict sample_lib;
  best_iteration := best_iteration sample_lib;
  best_score := best_score sample_lib
|}.



(** What the [predict] branch logs for a prediction, and before it
    calls [predict]. *)
Definition prediction_msg (L : Lib) (p : Prediction) : string :=
  "Результат предсказания: цена=" +:+ fmt_2f L (predicted_price p)
  +:+ ", продажи=" +:+ fmt_2f L (predicted_sales p).

Definition predict_start_msg : string := "Запуск предсказания для данных продукта".

(** Ten rows with the required columns and no other. *)
Definition required_only_frame : DataFrame :=
  mkDF required_columns [] (replicate 10 (replicate 8 (CNum 1))).

(** The value [v] is within the bounds [lo] and [hi]. *)
Definition within (lo hi v : Q) : Prop := Qle_bool lo v && Qle_bool v hi = true.

#[global] Instance within_dec (lo hi v : Q) : Decision (within lo hi v) :=
  bool_eq_dec _ _.

(** The position of the quantile [q] among [n] sorted values: the index
    at which [Series.quantile] starts to interpolate. *)
Definition quantile_index (q : Q) (n : nat) : nat :=
  Z.to_nat (Qfloor (q * inject_Z (Z.of_nat (n - 1)))).

(** The value of the key [k] in a record, as the one-row frame of the
    record has it. *)
Definition record_get (record : list (string * cell)) (k : string) : option cell :=
  i ← col_index (record.*1) k; record.*2 !! i.

(** Two frames agree on the labels [keys]: they have as many rows, the
    same column (or none) under each label of [keys], and the same
    [category] labels among [keys]. *)
Definition agree_on (L : Lib) (keys : list string) (d1 d2 : DataFrame) : Prop :=
  nrows d1 = nrows d2 ∧
  (∀ k, k ∈ keys → series L d1 k = series L d2 k) ∧
  filter (λ c, c ∈ keys) (category_cols d1) = filter (λ c, c ∈ keys) (category_cols d2).

(** Two results agree: the same exception, or frames that agree. *)
Definition agree_outcome (L : Lib) (keys : list string) (o1 o2 : outcome DataFrame)
  : Prop :=
  match o1, o2 with
  | Ret d1, Ret d2 => agree_on L keys d1 d2
  | Raise e1, Raise e2 => e1 = e2
  | _, _ => False
  end.

(** The sample record with one more key, which the schema does not
    have, in front. *)
Definition extended_record : list (string * cell) :=
  ("note", CStr "x") :: sample_record.

(** * Properties *)

(** ** Column lookup *)

Lemma col_index_Some (cols : list string) (c : string) :
  c ∈ cols → ∃ i, col_index cols c = Some i ∧ cols !! i = Some c.
Proof.
  induction cols as [|c' cols IH]; intros Hin; [by apply elem_of_nil in Hin|].
  simpl. destruct (decide (c' = c)) as [->|Hne]; [by exists 0%nat|].
  apply elem_of_cons in Hin as [->|Hin]; [done|].
  destruct (IH Hin) as (i & -> & Hi). by exists (S i).
Qed.

Lemma col_index_None (cols : list string) (c : string) :
  c ∉ cols → col_index cols c = None.
Proof.
  induction cols as [|c' cols IH]; intros Hin; [done|].
  simpl. apply not_elem_of_cons in Hin as [Hne Hin].
  destruct (decide (c' = c)); [congruence|]. by rewrite IH.
Qed.

Lemma col_index_lookup (cols : list string) (c : string) (i : nat) :
  col_index cols c = Some i → cols !! i = Some c.
Proof.
  revert i. induction cols as [|c' cols IH]; intros i; [done|].
  simpl. destruct (decide (c' = c)) as [->|Hne].
  - by intros [= <-].
  - destruct (col_index cols c) as [j|] eqn:Hj; [|done].
    intros [= <-]. by apply IH.
Qed.

Lemma series_present (L : Lib) (df : DataFrame) (c : string) :
  c ∈ columns df →
  ∃ i, col_index (columns df) c = Some i ∧ series L df c = Ret (cell_at i <$> rows df).
Proof.
  intros Hin. destruct (col_index_Some _ _ Hin) as (i & Hi & _).
  exists i. split; [done|]. unfold series. by rewrite Hi.
Qed.

Lemma series_absent (L : Lib) (df : DataFrame) (c : string) :
  c ∉ columns df → series L df c = Raise (Exc KeyError (py_repr L c)).
Proof. intros Hin. unfold series. by rewrite col_index_None. Qed.

(** ** Row filtering *)

Lemma mask_rows_sublist (mask : list bool) (rs : list (list cell)) :
  mask_rows mask rs `sublist_of` rs.
Proof.
  revert mask. induction rs as [|r rs IH]; intros [|b mask]; simpl;
    try apply sublist_nil_l.
  destruct b; [by apply sublist_skip | by apply sublist_cons].
Qed.

Lemma filter_mask_columns (df : DataFrame) (mask : list bool) :
  columns (filter_mask df mask) = columns df.
Proof. done. Qed.

(** ** Numeric columns *)

Lemma numeric_values_Some (s : list cell) :
  Forall (λ c, is_numeric c = true) s → is_Some (numeric_values s).
Proof.
  induction 1 as [|c s Hc _ IH]; [by eexists|].
  destruct c; simpl in *; try done.
  destruct IH as [vs ->]. by eexists.
Qed.

Lemma quantile_numeric (s : list cell) (q : Q) :
  Forall (λ c, is_numeric c = true) s →
  Qle_bool 0 q = true → Qle_bool q 1 = true →
  ∃ b, quantile s q = Ret b.
Proof.
  intros Hs H0 H1. unfold quantile. rewrite H0, H1. simpl.
  destruct (numeric_values_Some s Hs) as [vs ->]. by eexists.
Qed.

Lemma Forall_sublist {A} (P : A → Prop) (l k : list A) :
  k `sublist_of` l → Forall P l → Forall P k.
Proof.
  induction 1 as [|x k l _ IH|x k l _ IH]; intros Hall; [done|..].
  - apply Forall_cons in Hall as [Hx Hl]. constructor; auto.
  - apply Forall_cons in Hall as [_ Hl]. auto.
Qed.

Lemma numeric_col_sublist (df df' : DataFrame) (c : string) :
  columns df' = columns df →
  rows df' `sublist_of` rows df →
  numeric_col df c → numeric_col df' c.
Proof.
  intros Hcols Hsub (i & Hi & Hall). exists i. split; [by rewrite Hcols|].
  by eapply Forall_sublist.
Qed.

(** ** [remove_outliers] *)

Lemma remove_outliers_step_numeric (L : Lib) (df : DataFrame) (col : string) (lq uq : Q) :
  numeric_col df col →
  Qle_bool 0 lq = true → Qle_bool lq 1 = true →
  Qle_bool 0 uq = true → Qle_bool uq 1 = true →
  ∃ mask, remove_outliers_step L lq uq df col = Ret (filter_mask df mask).
Proof.
  intros (i & Hi & Hall) Hl0 Hl1 Hu0 Hu1.
  assert (Hs : Forall (λ c, is_numeric c = true) (cell_at i <$> rows df))
    by (by apply Forall_fmap).
  destruct (quantile_numeric _ lq Hs Hl0 Hl1) as [lo Hlo].
  destruct (quantile_numeric _ uq Hs Hu0 Hu1) as [hi Hhi].
  unfold remove_outliers_step, series. rewrite Hi. simpl.
  rewrite Hlo. simpl. rewrite Hhi. simpl. by eexists.
Qed.

Lemma remove_outliers_numeric (L : Lib) (cols : list string) (lq uq : Q) :
  Qle_bool 0 lq = true → Qle_bool lq 1 = true →
  Qle_bool 0 uq = true → Qle_bool uq 1 = true →
  ∀ df, Forall (numeric_col df) cols →
  ∃ df', remove_outliers L df cols lq uq = Ret df' ∧
         columns df' = columns df ∧
         category_cols df' = category_cols df ∧
         rows df' `sublist_of` rows df.
Proof.
  intros Hl0 Hl1 Hu0 Hu1.
  induction cols as [|col cols IH]; intros df Hnum; simpl.
  { by exists df. }
  apply Forall_cons in Hnum as [Hcol Hcols].
  destruct (remove_outliers_step_numeric L df col lq uq Hcol Hl0 Hl1 Hu0 Hu1)
    as [mask ->]. simpl.
  set (df1 := filter_mask df mask).
  assert (Hsub : rows df1 `sublist_of` rows df) by apply mask_rows_sublist.
  destruct (IH df1) as (df' & -> & Hc & Hcat & Hr).
  { eapply Forall_impl; [exact Hcols|]. intros c Hc.
    by apply (numeric_col_sublist df df1). }
  exists df'. repeat split; [done..|]. by etrans.
Qed.

Lemma remove_outliers_step_bounds (L : Lib) (df : DataFrame) (col : string) (lq uq : Q) :
  remove_outliers_step L lq uq df col =
  ('(lo, hi) ← column_bounds L df col lq uq; keep_within L df col lo hi).
Proof.
  unfold remove_outliers_step, column_bounds, keep_within.
  destruct (series L df col) as [s|e]; simpl; [|done].
  destruct (quantile s lq) as [lo|e]; simpl; [|done].
  destruct (quantile s uq) as [hi|e]; simpl; [|done].
  do 2 f_equal. clear. induction s as [|x s IH]; simpl; [done|]. f_equal. exact IH.
Qed.

(** C2: with the target list [price_target; sales_target] the filter runs
    in list order: the bounds of [sales_target] are taken on the frame
    that the bounds of [price_target] have already filtered, and on
    [outlier_frame] the rows kept differ from those kept when both pairs
    of bounds are taken on the original frame. *)
Theorem remove_outliers_sequential (L : Lib) :
  (∀ df lq uq,
     remove_outliers L df ["price_target"; "sales_target"] lq uq =
     ('(lo1, hi1) ← column_bounds L df "price_target" lq uq;
      df1 ← keep_within L df "price_target" lo1 hi1;
      '(lo2, hi2) ← column_bounds L df1 "sales_target" lq uq;
      keep_within L df1 "sales_target" lo2 hi2)) ∧
  (∃ df kept kept',
     remove_outliers L df ["price_target"; "sales_target"] (1 # 100) (99 # 100)
       = Ret kept ∧
     remove_outliers_on_original L df "price_target" "sales_target" (1 # 100) (99 # 100)
       = Ret kept' ∧
     nrows kept ≠ nrows kept').
Proof.
  split.
  - intros df lq uq. simpl. rewrite !remove_outliers_step_bounds.
    destruct (column_bounds L df "price_target" lq uq) as [[lo1 hi1]|e]; simpl; [|done].
    destruct (keep_within L df "price_target" lo1 hi1) as [df1|e]; simpl; [|done].
    rewrite remove_outliers_step_bounds.
    destruct (column_bounds L df1 "sales_target" lq uq) as [[lo2 hi2]|e]; simpl; [|done].
    by destruct (keep_within L df1 "sales_target" lo2 hi2).
  - exists outlier_frame. eexists. eexists.
    split; [vm_compute; reflexivity|].
    split; [vm_compute; reflexivity|].
    vm_compute. lia.
Qed.

(** C8 (as stated, refuted): on a frame without the column
    [price_target] the filter raises [KeyError]. *)
Lemma remove_outliers_raises_on_missing_column :
  remove_outliers sample_lib no_price_frame ["price_target"; "sales_target"]
    (1 # 100) (99 # 100)
  = Raise (Exc KeyError "'price_target'").
Proof. vm_compute. reflexivity. Qed.

(** C8 (amended): when every listed column is present and numeric and the
    quantiles lie in [0, 1], [remove_outliers] returns a frame with the
    same columns whose rows are a subsequence of the rows given, so it
    has at most as many rows. *)
Theorem remove_outliers_subframe (L : Lib) (df : DataFrame) (cols : list string)
    (lq uq : Q) :
  Forall (numeric_col df) cols →
  Qle_bool 0 lq = true → Qle_bool lq 1 = true →
  Qle_bool 0 uq = true → Qle_bool uq 1 = true →
  ∃ df', remove_outliers L df cols lq uq = Ret df' ∧
         columns df' = columns df ∧
         rows df' `sublist_of` rows df ∧
         (nrows df' ≤ nrows df)%nat.
Proof.
  intros Hnum Hl0 Hl1 Hu0 Hu1.
  destruct (remove_outliers_numeric L cols lq uq Hl0 Hl1 Hu0 Hu1 df Hnum)
    as (df' & Hrun & Hc & _ & Hr).
  exists df'. repeat split; [done..|]. by apply sublist_length.
Qed.

Lemma remove_outliers_subframe_witness :
  ∃ df', remove_outliers sample_lib outlier_frame target_columns (1 # 100) (99 # 100)
           = Ret df' ∧
         columns df' = columns outlier_frame ∧
         rows df' `sublist_of` rows outlier_frame ∧
         (nrows df' ≤ nrows outlier_frame)%nat.
Proof.
  apply (remove_outliers_subframe sample_lib outlier_frame target_columns);
    [|reflexivity..].
  repeat constructor.
  - exists 0%nat. split; [reflexivity|]. repeat constructor.
  - exists 1%nat. split; [reflexivity|]. repeat constructor.
Defined.

(** ** [validate_data] *)

Lemma filter_absent_nil (cols req : list string) :
  filter (λ c, c ∉ cols) req = [] ↔ ∀ c, c ∈ req → c ∈ cols.
Proof.
  induction req as [|r req IH]; simpl.
  { split; [|done]. intros _ c Hc. by apply elem_of_nil in Hc. }
  rewrite filter_cons. destruct (decide (r ∉ cols)) as [Hr|Hr].
  - split; [done|]. intros Hall. destruct Hr. apply Hall. by left.
  - rewrite IH. apply dec_stable in Hr. split.
    + intros Hall c [->|Hc]%elem_of_cons; auto.
    + intros Hall c Hc. apply Hall. by right.
Qed.

(** C3: [validate_data] returns [False] for every frame that lacks one of
    the eight required columns and for every frame with fewer than ten
    rows, and [True] for every frame with all eight columns and at least
    ten rows. *)
Theorem validate_data_spec (L : Lib) (df : DataFrame) (st : Proc (Booster L)) :
  required_columns =
    ["price_target"; "sales_target"; "brand"; "region"; "category"; "seller";
     "price"; "original_price"] ∧
  ∃ b, (validate_data L df st).1 = Ret b ∧
       (b = true ↔ (∀ c, c ∈ required_columns → c ∈ columns df) ∧ (10 ≤ nrows df)%nat) ∧
       (b = false ↔ (∃ c, c ∈ required_columns ∧ c ∉ columns df) ∨ (nrows df < 10)%nat).
Proof.
  split; [done|].
  assert (Hdec : (∀ c, c ∈ required_columns → c ∈ columns df) ∨
                 (∃ c, c ∈ required_columns ∧ c ∉ columns df)).
  { destruct (decide (Forall (λ c, c ∈ columns df) required_columns)) as [H|H].
    - left. by apply Forall_forall.
    - right. apply not_Forall_Exists in H; [|apply _].
      apply Exists_exists in H as (c & Hc & Hn). eauto. }
  unfold validate_data.
  destruct (filter (λ col, col ∉ columns df) required_columns) as [|m ms] eqn:Hf.
  - pose proof (proj1 (filter_absent_nil _ _) Hf) as Hall.
    destruct (Nat.ltb_spec (nrows df) 10) as [Hlt|Hge].
    + exists false. split; [done|]. split.
      * split; [done|]. intros [_ Hge]. lia.
      * split; [by right|done].
    + exists true. split; [done|]. split.
      * done.
      * split; [done|]. intros [(c & Hc & Hn)|Hlt]; [|lia]. destruct Hn. auto.
  - exists false. split; [done|].
    assert (Hm : m ∈ filter (λ col, col ∉ columns df) required_columns)
      by (rewrite Hf; by left).
    apply list_elem_of_filter in Hm as [Hn Hm].
    split.
    + split; [done|]. intros [Hall _]. destruct Hn. auto.
    + split; [|done]. intros _. left. eauto.
Qed.

(** ** [dropna] and the frames of [train] *)




(** ** [astype], column assignment and selection *)

Lemma astype_int_ok (L : Lib) (s : list cell) :
  Forall (int_convertible L) s →
  ∃ s', astype_int L s = Ret s' ∧ length s' = length s.
Proof.
  induction 1 as [|c s Hc _ (s' & IH & Hlen)]; [by exists []|].
  simpl. assert (∃ c', cell_to_int L c = Ret c') as [c' ->].
  { destruct c; simpl in *; try done; eauto. destruct Hc as [z ->]. eauto. }
  simpl. rewrite IH. simpl. exists (c' :: s'). by rewrite <- Hlen.
Qed.

Lemma zip_with_insert_rows (i : nat) (rs : list (list cell)) (vs : list cell) :
  length vs = length rs →
  length (zip_with (λ row v, <[i:=v]> row) rs vs) = length rs ∧
  ∀ j, j ≠ i →
    cell_at j <$> zip_with (λ row v, <[i:=v]> row) rs vs = cell_at j <$> rs.
Proof.
  revert vs. induction rs as [|r rs IH]; intros [|v vs] Hlen; try done.
  simpl in Hlen. destruct (IH vs) as [Hl Hc]; [lia|]. split.
  - simpl. by rewrite Hl.
  - intros j Hj. simpl. f_equal.
    + unfold cell_at. by rewrite list_lookup_insert_ne.
    + by apply Hc.
Qed.

Lemma col_index_inj (cols : list string) (c c' : string) (i : nat) :
  col_index cols c = Some i → col_index cols c' = Some i → c = c'.
Proof.
  intros H H'. apply col_index_lookup in H, H'. congruence.
Qed.

Lemma assign_astype_int_ok (L : Lib) (df : DataFrame) (c : string) :
  flag_col L df c →
  ∃ df', assign_astype_int L df c = Ret df' ∧
         columns df' = columns df ∧
         nrows df' = nrows df ∧
         ∀ c', c' ≠ c → flag_col L df c' → flag_col L df' c'.
Proof.
  intros (i & Hi & Hall). unfold assign_astype_int, series. rewrite Hi. simpl.
  destruct (astype_int_ok L (cell_at i <$> rows df)) as (s' & -> & Hlen).
  { by apply Forall_fmap. }
  simpl. eexists. split; [done|]. unfold set_column. rewrite Hi. simpl.
  rewrite length_fmap in Hlen.
  destruct (zip_with_insert_rows i (rows df) s' Hlen) as [Hl Hc].
  split; [done|]. split; [done|].
  intros c' Hne (j & Hj & Hflag). exists j. split; [done|]. simpl.
  assert (Hji : j ≠ i) by (intros ->; apply Hne; by eapply col_index_inj).
  apply (Forall_fmap (cell_at j) (int_convertible L)).
  rewrite (Hc j Hji). by apply Forall_fmap.
Qed.

Lemma cast_categories_ok (L : Lib) (cats : list string) :
  ∀ df, ∃ df', cast_categories L df cats = Ret df' ∧
               columns df' = columns df ∧ rows df' = rows df.
Proof.
  induction cats as [|c cats IH]; intros df; simpl; [by exists df|].
  unfold has_col. case_bool_decide as Hc.
  - unfold assign_astype_category.
    destruct (series_present L df c Hc) as (i & _ & ->). simpl.
    edestruct IH as (df' & -> & Hcols & Hrows). by exists df'.
  - simpl. apply IH.
Qed.

Lemma select_columns_ok (L : Lib) (df : DataFrame) (keys : list string) :
  (∀ k, k ∈ keys → k ∈ columns df) →
  ∃ X, select_columns L df keys = Ret X ∧ columns X = keys ∧ nrows X = nrows df.
Proof.
  intros Hall. unfold select_columns.
  rewrite (proj2 (filter_absent_nil (columns df) keys) Hall).
  eexists. split; [done|]. split; [done|]. unfold nrows. simpl. by rewrite length_fmap.
Qed.

(** When [select_columns] returns, the columns of the result are the keys
    asked for, in the order asked. *)
Lemma select_columns_columns (L : Lib) (df X : DataFrame) (keys : list string) :
  select_columns L df keys = Ret X → columns X = keys.
Proof.
  unfold select_columns.
  destruct (filter _ keys); [by intros [= <-]|].
  by destruct (_ =? _)%nat.
Qed.

Lemma flag_col_elem (L : Lib) (df : DataFrame) (c : string) :
  flag_col L df c → c ∈ columns df.
Proof.
  intros (i & Hi & _). apply col_index_lookup in Hi. by eapply list_elem_of_lookup_2.
Qed.

Ltac pure_simpl :=
  cbv beta iota zeta delta [mbind outcome_bind mret outcome_ret].

Lemma prepare_features_ok (L : Lib) (df : DataFrame) :
  (∀ c, c ∈ schema_feature_names → c ∈ columns df) →
  flag_col L df "is_weekend" → flag_col L df "is_holiday" →
  ∃ df' X,
    _prepare_features L df = Ret (df', X, schema_feature_names, categorical_feature_names) ∧
    columns df' = columns df ∧ nrows df' = nrows df ∧
    columns X = schema_feature_names ∧ nrows X = nrows df.
Proof.
  intros Hcols Hw Hh. unfold _prepare_features. pure_simpl.
  destruct (assign_astype_int_ok L df "is_weekend" Hw) as (df1 & -> & Hc1 & Hn1 & Hkeep).
  pure_simpl.
  destruct (assign_astype_int_ok L df1 "is_holiday") as (df2 & -> & Hc2 & Hn2 & _).
  { by apply Hkeep. }
  pure_simpl.
  destruct (cast_categories_ok L categorical_feature_names df2) as (df3 & -> & Hc3 & Hr3).
  pure_simpl.
  destruct (select_columns_ok L df3 (numerical_feature_names ++ categorical_feature_names))
    as (X & -> & HcX & HnX).
  { intros k Hk. rewrite Hc3, Hc2, Hc1. by apply Hcols. }
  pure_simpl. exists df3, X.
  assert (Hn3 : nrows df3 = nrows df) by (unfold nrows in *; rewrite Hr3; congruence).
  repeat split; try done; congruence.
Qed.

(** ** Running the script *)

(** Unfolding of the monad and of the primitives of the script, leaving
    pandas, the library calls and the texts as they are. *)
Ltac run_cbv_goal :=
  cbv beta iota zeta delta
    [mbind M_bind mret M_ret raise lift try_except get_self set_self
     record_event set_fs print stderr_write sys_exit log_info
     makedirs open_read open_write pickle_load json_load dict_get
     pd_read_csv lgb_train_call booster_predict_call first_prediction
     py_json_loads of_lib is_Exception no_such_file str_exn
     validate_data save_models __init__
     train predict main main_predict main_predict_body main_predict_handler
     negb andb orb
     self fs out err trace
     model_dir price_model sales_model feature_names categorical_features
     action train_data val_data arg_model_dir
     boot fst snd].

Ltac run_cbv_in H :=
  cbv beta iota zeta delta
    [mbind M_bind mret M_ret raise lift try_except get_self set_self
     record_event set_fs print stderr_write sys_exit log_info
     makedirs open_read open_write pickle_load json_load dict_get
     pd_read_csv lgb_train_call booster_predict_call first_prediction
     py_json_loads of_lib is_Exception no_such_file str_exn
     validate_data save_models __init__
     train predict main main_predict main_predict_body main_predict_handler
     negb andb orb
     self fs out err trace
     model_dir price_model sales_model feature_names categorical_features
     action train_data val_data arg_model_dir
     boot fst snd] in H.

(** The same for [main], with [train] and the [predict] branch left
    folded: they are handled by their own lemmas. *)
Ltac main_cbv_in H :=
  cbv beta iota zeta delta
    [mbind M_bind mret M_ret raise lift get_self set_self
     record_event set_fs print stderr_write sys_exit log_info
     makedirs __init__ main of_lib
     negb andb orb
     self fs out err trace
     model_dir price_model sales_model feature_names categorical_features
     action train_data val_data arg_model_dir
     boot fst snd] in H.

(** One step of a run: split on the next test the script makes. *)
Ltac run_step :=
  match goal with
  | |- context [match ?x with _ => _ end] =>
      lazymatch x with
      | context [match _ with _ => _ end] => fail
      | _ => destruct x eqn:?
      end
  end; run_cbv_goal; rewrite ?lookup_insert_eq.

(** The same on a run given as a hypothesis [H : m st = (r, st')]; the
    branches that end otherwise than [H] says are closed. *)
Ltac run_step_in H :=
  match type of H with
  | context [match ?x with _ => _ end] =>
      lazymatch x with
      | context [match _ with _ => _ end] => fail
      | _ => destruct x eqn:?
      end
  end; run_cbv_in H; rewrite ?lookup_insert_eq in H; try discriminate H.

(** Running [H : m st = (r, st')] to its ends; [load_models] is split
    into its two cases by [load_models_cases] (stated below, so the
    tactic is only usable after it). *)
Ltac run_step_main_in H :=
  match type of H with
  | context [match ?x with _ => _ end] =>
      lazymatch x with
      | context [match _ with _ => _ end] => fail
      | _ => destruct x eqn:?
      end
  end; main_cbv_in H; rewrite ?lookup_insert_eq, ?lookup_empty in H.


(** The two ways [load_models] ends: all three artifacts are read and
    the predictor holds them, or one is not and a line says so. *)
Lemma load_models_cases (L : Lib) (st : Proc (Booster L)) :
  (∃ entries pm sm doc names cats,
     fs st !! model_dir (self st) = Some (Dir entries) ∧
     entries !! "price_model.pkl" = Some (Pickled pm) ∧
     entries !! "sales_model.pkl" = Some (Pickled sm) ∧
     entries !! "feature_info.json" = Some (SchemaDoc doc) ∧
     doc !! "feature_names" = Some names ∧
     doc !! "categorical_features" = Some cats ∧
     ∃ evs,
       load_models L st =
       (Ret true,
        mkProc (mkPredictor (model_dir (self st)) (Some pm) (Some sm)
                  (Some names) (Some cats))
               (fs st) (out st) (err st) (trace st ++ evs))) ∨
  (¬ artifacts_ok (fs st) (model_dir (self st)) ∧
   ∃ me' msg evs,
     model_dir me' = model_dir (self st) ∧
     load_models L st =
     (Ret false,
      mkProc me' (fs st) (out st ++ ["Error loading models: " +:+ msg]) (err st)
             (trace st ++ evs))).
Proof.
  destruct st as [[d pm sm names cats] files o e t].
  unfold load_models, load_models_body. run_cbv_goal.
  repeat run_step.
  all: simplify_eq.
  all: try (right; split;
      [ unfold artifacts_ok; intros (?&?&?&?&?&?&?&?&?&?&?&?); simplify_eq
      | eexists _, _, _; split; [|rewrite <- ?app_assoc; reflexivity]; reflexivity ]).
  left. eexists _, _, _, _, _, _. split; [reflexivity|].
  repeat (split; [eassumption|]).
  eexists. rewrite <- !app_assoc. reflexivity.
Qed.

Lemma prepare_features_names (L : Lib) (df df' X : DataFrame) (names cats : list string) :
  _prepare_features L df = Ret (df', X, names, cats) →
  names = schema_feature_names ∧ cats = categorical_feature_names ∧ columns X = names.
Proof.
  unfold _prepare_features. pure_simpl.
  destruct (assign_astype_int L df "is_weekend") as [df1|]; [|done].
  destruct (assign_astype_int L df1 "is_holiday") as [df2|]; [|done].
  destruct (cast_categories L df2 categorical_feature_names) as [df3|]; [|done].
  destruct (select_columns L df3 _) as [X'|] eqn:Hsel; [|done].
  intros [= <- <- <- <-]. apply select_columns_columns in Hsel. done.
Qed.

Lemma train_success_state (L : Lib) (tp vp : string) (st0 st1 : Proc (Booster L))
    (metrics : Metrics) :
  train L tp vp st0 = (Ret metrics, st1) →
  ∃ pm sm entries,
    self st1 = mkPredictor (model_dir (self st0)) (Some pm) (Some sm)
                 (Some schema_feature_names) (Some categorical_feature_names) ∧
    fs st1 !! model_dir (self st0) = Some (Dir entries) ∧
    entries !! "price_model.pkl" = Some (Pickled pm) ∧
    entries !! "sales_model.pkl" = Some (Pickled sm) ∧
    entries !! "feature_info.json" =
      Some (SchemaDoc (<["categorical_features" := categorical_feature_names]>
                         (<["feature_names" := schema_feature_names]> ∅))).
Proof.
  destruct st0 as [[d pm0 sm0 names0 cats0] files o e t].
  intros H. run_cbv_in H.
  repeat run_step_in H.
  injection H as <- <-. simplify_eq. run_cbv_goal.
  match goal with
  | Hp : _prepare_features L _ = Ret (_, _, ?names, ?cats),
    Hq : _prepare_features L _ = Ret (_, _, _, _) |- context [Some ?names] =>
      destruct (prepare_features_names L _ _ _ _ _ Hp) as (-> & -> & _)
  end.
  eexists _, _, _. split; [reflexivity|].
  rewrite lookup_insert_eq. split; [reflexivity|].
  rewrite lookup_insert_eq.
  rewrite lookup_insert_ne by done. rewrite lookup_insert_ne by done.
  rewrite lookup_insert_eq.
  rewrite lookup_insert_ne by done. rewrite lookup_insert_eq. done.
Qed.

(** ** The feature schema at train time and at predict time *)

Lemma predict_features_columns (L : Lib) (me : Predictor (Booster L))
    (record : list (string * cell)) (X : DataFrame) (names : list string) :
  predict_features L me record = Ret X →
  feature_names me = Some names →
  columns X = names.
Proof.
  unfold predict_features. pure_simpl. intros H Hn. rewrite Hn in H.
  repeat match type of H with
  | context [match ?x with _ => _ end] =>
      lazymatch x with
      | context [match _ with _ => _ end] => fail
      | _ => destruct x eqn:?
      end
  end; try discriminate H.
  all: by eapply select_columns_columns.
Qed.

Lemma fresh_process_existing_dir (L : Lib) (files : gmap string (node (Booster L)))
    (d : string) (entries : gmap string (content (Booster L))) :
  files !! d = Some (Dir entries) →
  fresh_process L files d =
  mkProc (mkPredictor d None None None None) files [] [] ([] ++ [EMakedirs d]).
Proof.
  intros Hd. unfold fresh_process. run_cbv_goal. by rewrite Hd.
Qed.

(** C1 (as stated, refuted): a frame with every schema column and a
    missing value in [is_weekend] makes [_prepare_features] raise. *)
Lemma prepare_features_raises_on_missing_flag :
  Forall (λ c, c ∈ columns nan_flag_frame) schema_feature_names ∧
  _prepare_features sample_lib nan_flag_frame =
    Raise (Exc ValueError "Cannot convert non-finite values (NA or inf) to integer").
Proof.
  split; [|vm_compute; reflexivity].
  repeat constructor; apply bool_decide_unpack; vm_compute; exact I.
Qed.

(** C1 (amended): given a frame with every schema column whose
    [is_weekend] and [is_holiday] cells all convert to integers,
    [_prepare_features] returns a matrix whose columns are the 26 schema
    columns in the fixed order, 19 numeric then 7 categorical; and after
    every training run that completes, a new process that loads the
    persisted schema holds the same feature names in the same order, and
    the matrix it builds at predict time has its columns in that order. *)
Theorem feature_order_fixed (L : Lib) :
  schema_feature_names = numerical_feature_names ++ categorical_feature_names ∧
  length numerical_feature_names = 19%nat ∧
  length categorical_feature_names = 7%nat ∧
  (∀ df,
     (∀ c, c ∈ schema_feature_names → c ∈ columns df) →
     flag_col L df "is_weekend" → flag_col L df "is_holiday" →
     ∃ df' X,
       _prepare_features L df
         = Ret (df', X, schema_feature_names, categorical_feature_names) ∧
       columns X = schema_feature_names ∧ nrows X = nrows df) ∧
  (∀ tp vp st0 metrics st1,
     train L tp vp st0 = (Ret metrics, st1) →
     feature_names (self st1) = Some schema_feature_names ∧
     categorical_features (self st1) = Some categorical_feature_names ∧
     ∃ st2,
       load_models L (fresh_process L (fs st1) (model_dir (self st0))) = (Ret true, st2) ∧
       feature_names (self st2) = feature_names (self st1) ∧
       categorical_features (self st2) = categorical_features (self st1) ∧
       ∀ record X,
         predict_features L (self st2) record = Ret X →
         columns X = schema_feature_names).
Proof.
  split; [done|]. split; [done|]. split; [done|]. split.
  - intros df Hcols Hw Hh.
    destruct (prepare_features_ok L df Hcols Hw Hh) as (df' & X & H & _ & _ & HX & Hn).
    by exists df', X.
  - intros tp vp st0 metrics st1 Htrain.
    destruct (train_success_state L tp vp st0 st1 metrics Htrain)
      as (pm & sm & entries & Hself & Hfs & Hp & Hs & Hj).
    rewrite Hself. cbn [self feature_names categorical_features].
    split; [done|]. split; [done|].
    rewrite (fresh_process_existing_dir L _ _ entries Hfs).
    destruct (load_models_cases L
                (mkProc (mkPredictor (model_dir (self st0)) None None None None)
                   (fs st1) [] [] ([] ++ [EMakedirs (model_dir (self st0))])))
      as [(en & pm' & sm' & doc & names & cats & Hd & Hp' & Hs' & Hj' & Hn & Hc & evs & Hload)
         |[Hbad _]].
    + cbn [self fs model_dir] in Hd. rewrite Hfs in Hd. simplify_eq.
      rewrite lookup_insert_ne in Hn by done. rewrite lookup_insert_eq in Hn.
      rewrite lookup_insert_eq in Hc. simplify_eq.
      eexists. split; [exact Hload|]. cbn [self feature_names categorical_features].
      split; [done|]. split; [done|].
      intros record X HX. by eapply predict_features_columns.
    + destruct Hbad. cbn [self fs model_dir]. unfold artifacts_ok.
      eexists entries, pm, sm, _, _, _. repeat (split; [eassumption|]).
      split; [by rewrite lookup_insert_ne, lookup_insert_eq | by rewrite lookup_insert_eq].
Qed.

Lemma sample_trained_returns : ∃ metrics st1, sample_trained = (Ret metrics, st1).
Proof. eexists _, _. vm_compute. reflexivity. Qed.

Lemma flag_col_sample (c : string) (i : nat) :
  col_index (columns sample_frame) c = Some i →
  (i < 19)%nat →
  flag_col sample_lib sample_frame c.
Proof.
  intros Hi Hlt. exists i. split; [done|].
  repeat (constructor;
          [do 19 (destruct i as [|i]; [exact I|]); exfalso; lia|]).
  constructor.
Qed.

Lemma feature_order_fixed_witness :
  (∃ df' X,
     _prepare_features sample_lib sample_frame
       = Ret (df', X, schema_feature_names, categorical_feature_names) ∧
     columns X = schema_feature_names ∧ nrows X = nrows sample_frame) ∧
  (∃ st2,
     load_models sample_lib (fresh_process sample_lib (fs sample_trained.2) "models")
       = (Ret true, st2) ∧
     feature_names (self st2) = Some schema_feature_names).
Proof.
  destruct (feature_order_fixed sample_lib) as (_ & _ & _ & Ha & Hb). split.
  - apply Ha.
    + apply Forall_forall. unfold schema_feature_names.
      repeat constructor; apply bool_decide_unpack; vm_compute; exact I.
    + apply (flag_col_sample "is_weekend" 7); [reflexivity | lia].
    + apply (flag_col_sample "is_holiday" 8); [reflexivity | lia].
  - destruct sample_trained_returns as (metrics & st1 & Hrun).
    rewrite Hrun.
    destruct (Hb "data.csv" "val.csv" (fresh_process sample_lib ∅ "models")
                metrics st1 Hrun)
      as (Hn & _ & st2 & Hload & Hn2 & _).
    exists st2. split; [exact Hload|]. by rewrite Hn2.
Defined.

(** ** Saving and loading the bundle *)

Lemma save_models_run (L : Lib) (st : Proc (Booster L)) (d : string)
    (pm sm : Booster L) (names cats : list string)
    (entries : gmap string (content (Booster L))) :
  self st = mkPredictor d (Some pm) (Some sm) (Some names) (Some cats) →
  fs st !! d = Some (Dir entries) →
  ∃ st', save_models L st = (Ret (), st') ∧
         self st' = self st ∧ out st' = out st ∧ err st' = err st ∧
         fs st' !! d =
           Some (Dir (<["feature_info.json" :=
                          SchemaDoc (<["categorical_features" := cats]>
                                       (<["feature_names" := names]> ∅))]>
                        (<["sales_model.pkl" := Pickled sm]>
                           (<["price_model.pkl" := Pickled pm]> entries)))).
Proof.
  destruct st as [me files o e t]. cbn [self fs out err]. intros -> Hd.
  run_cbv_goal. rewrite Hd. rewrite !lookup_insert_eq.
  eexists. split; [reflexivity|]. cbn [self fs out err].
  by rewrite lookup_insert_eq.
Qed.

(** C5: a bundle held in memory (both models and the schema) is saved,
    and a new process on the resulting files loads it: the load
    succeeds, the feature names, the categorical names and both models
    are those that were saved, and for every record [predict] in the new
    process gives the result [predict] gives in the process that
    trained. *)
Theorem save_load_round_trip (L : Lib) (st : Proc (Booster L)) (d : string)
    (pm sm : Booster L) (names cats : list string)
    (entries : gmap string (content (Booster L))) :
  self st = mkPredictor d (Some pm) (Some sm) (Some names) (Some cats) →
  fs st !! d = Some (Dir entries) →
  ∃ st_saved st_loaded,
    save_models L st = (Ret (), st_saved) ∧
    load_models L (fresh_process L (fs st_saved) d) = (Ret true, st_loaded) ∧
    feature_names (self st_loaded) = Some names ∧
    categorical_features (self st_loaded) = Some cats ∧
    price_model (self st_loaded) = Some pm ∧
    sales_model (self st_loaded) = Some sm ∧
    ∀ record,
      (predict L record (fresh_process L (fs st_saved) d)).1 = (predict L record st).1.
Proof.
  intros Hself Hd.
  destruct (save_models_run L st d pm sm names cats entries Hself Hd)
    as (st1 & Hsave & Hself1 & _ & _ & Hfs1).
  exists st1. rewrite (fresh_process_existing_dir L _ _ _ Hfs1).
  destruct (load_models_cases L
              (mkProc (mkPredictor d None None None None) (fs st1) [] []
                 ([] ++ [EMakedirs d])))
    as [(en & pm' & sm' & doc & names' & cats' & Hd' & Hp' & Hs' & Hj' & Hn & Hc & evs & Hload)
       |[Hbad _]].
  - cbn [self fs out err trace model_dir] in Hd', Hload.
    rewrite Hfs1 in Hd'. simplify_eq.
    rewrite lookup_insert_ne, lookup_insert_ne, lookup_insert_eq in Hp' by done.
    rewrite lookup_insert_ne, lookup_insert_eq in Hs' by done.
    rewrite lookup_insert_eq in Hj'. simplify_eq.
    rewrite lookup_insert_ne, lookup_insert_eq in Hn by done.
    rewrite lookup_insert_eq in Hc. simplify_eq.
    eexists. split; [done|]. split; [exact Hload|].
    cbn [self feature_names categorical_features price_model sales_model].
    do 4 (split; [done|]).
    intros record. destruct st as [me files o e t]. cbn [self] in Hself. subst me.
    unfold predict at 1.
    cbv beta iota zeta delta
      [mbind M_bind get_self fst snd self price_model sales_model].
    case_bool_decide as Hnone; [|exfalso; auto].
    rewrite Hload.
    run_cbv_goal.
    case_bool_decide as Hsome; [by destruct Hsome|].
    repeat run_step; congruence.
  - destruct Hbad. cbn [self fs model_dir]. unfold artifacts_ok.
    eexists _, pm, sm, _, names, cats. split; [exact Hfs1|].
    repeat split; by simplify_map_eq.
Qed.

Lemma save_load_round_trip_witness :
  ∃ st_saved st_loaded,
    save_models sample_lib sample_bundle_state = (Ret (), st_saved) ∧
    load_models sample_lib (fresh_process sample_lib (fs st_saved) "models")
      = (Ret true, st_loaded) ∧
    feature_names (self st_loaded) = Some schema_feature_names ∧
    categorical_features (self st_loaded) = Some categorical_feature_names ∧
    price_model (self st_loaded) = Some 3%Z ∧
    sales_model (self st_loaded) = Some 4%Z ∧
    ∀ record,
      (predict sample_lib record (fresh_process sample_lib (fs st_saved) "models")).1
      = (predict sample_lib record sample_bundle_state).1.
Proof.
  apply (save_load_round_trip sample_lib sample_bundle_state "models" 3%Z 4%Z
           schema_feature_names categorical_feature_names ∅).
  - reflexivity.
  - vm_compute. reflexivity.
Defined.

(** ** Runs of [train] and of the [predict] branch, as hypotheses *)

Ltac run_step_in' H :=
  match type of H with
  | context [match ?x with _ => _ end] =>
      lazymatch x with
      | context [match _ with _ => _ end] => fail
      | context [load_models] => fail
      | _ => destruct x eqn:?
      end
  end; run_cbv_in H; rewrite ?lookup_insert_eq, ?lookup_empty in H.

Ltac run_load_in H :=
  match type of H with
  | context [load_models ?L ?st] =>
      let Hload := fresh "Hload" in
      destruct (load_models_cases L st)
        as [(?en & ?pm & ?sm & ?doc & ?names & ?cats & ?Hdir & ?Hpm & ?Hsm & ?Hdoc
             & ?Hnames & ?Hcats & ?evs & Hload)
           |(?Hbad & ?me' & ?msg & ?evs & ?Hdir' & Hload)];
      cbn [self fs out err trace model_dir] in *;
      rewrite Hload in H; clear Hload; run_cbv_in H
  end.


Ltac run_all H := run_cbv_in H; repeat first [run_load_in H | run_step_in' H].





(** ** The lines printed on stdout *)











(** The pandas operations raise subclasses of [Exception] only. *)
Lemma series_Exception (L : Lib) df c e :
  series L df c = Raise e → is_Exception e = true.
Proof. unfold series. destruct (col_index _ _); [done|]. by intros [= <-]. Qed.

Lemma astype_int_Exception (L : Lib) s e :
  astype_int L s = Raise e → is_Exception e = true.
Proof.
  induction s as [|c s IH]; simpl; [done|].
  destruct (cell_to_int L c) as [c'|e'] eqn:Hc; simpl.
  - destruct (astype_int L s); simpl; [done|]. intros [= <-]. by apply IH.
  - intros [= <-]. destruct c; simpl in Hc; try done; try by injection Hc as <-.
    destruct (int_of_str L s0); [done|]. by injection Hc as <-.
Qed.

Lemma assign_astype_int_Exception (L : Lib) df c e :
  assign_astype_int L df c = Raise e → is_Exception e = true.
Proof.
  unfold assign_astype_int. pure_simpl.
  destruct (series L df c) eqn:Hs; [|intros [= <-]; by eapply series_Exception].
  destruct (astype_int L a) eqn:Ha; [done|]. intros [= <-]. by eapply astype_int_Exception.
Qed.

Lemma cast_categories_Exception (L : Lib) cats df e :
  cast_categories L df cats = Raise e → is_Exception e = true.
Proof.
  revert df. induction cats as [|c cats IH]; intros df; simpl; [done|].
  destruct (has_col df c).
  - unfold assign_astype_category. pure_simpl.
    destruct (series L df c) eqn:Hs; simpl; [by apply IH|].
    intros [= <-]. by eapply series_Exception.
  - simpl. apply IH.
Qed.

Lemma select_columns_Exception (L : Lib) df keys e :
  select_columns L df keys = Raise e → is_Exception e = true.
Proof.
  unfold select_columns. destruct (filter _ keys); [done|].
  destruct (_ =? _)%nat; by intros [= <-].
Qed.

Lemma predict_features_Exception (L : Lib) (me : Predictor (Booster L)) record e :
  predict_features L me record = Raise e → is_Exception e = true.
Proof.
  unfold predict_features. pure_simpl. intros H.
  repeat match type of H with
  | context [match ?x with _ => _ end] =>
      lazymatch x with
      | context [match _ with _ => _ end] => fail
      | _ => destruct x eqn:?
      end
  end; simplify_eq; try done;
  eauto using assign_astype_int_Exception, cast_categories_Exception,
    select_columns_Exception.
Qed.







(** ** Texts: [repr] of simple labels *)

Lemma append_cons (c : ascii) (a b : string) : String c a +:+ b = String c (a +:+ b).
Proof. reflexivity. Qed.

Lemma append_nil_l (b : string) : EmptyString +:+ b = b.
Proof. reflexivity. Qed.

Lemma append_nil_r (a : string) : a +:+ EmptyString = a.
Proof. induction a as [|x a IH]; [done|]. by rewrite append_cons, IH. Qed.

Lemma append_assoc (a b c : string) : (a +:+ b) +:+ c = a +:+ b +:+ c.
Proof. induction a as [|x a IH]; [done|]. by rewrite !append_cons, IH. Qed.

Lemma string_forallb_app (p : ascii → bool) (a b : string) :
  string_forallb p (a +:+ b) = string_forallb p a && string_forallb p b.
Proof.
  induction a as [|x a IH]; [done|].
  rewrite append_cons. cbn [string_forallb]. by rewrite IH, andb_assoc.
Qed.

Lemma string_existsb_app (p : ascii → bool) (a b : string) :
  string_existsb p (a +:+ b) = string_existsb p a || string_existsb p b.
Proof.
  induction a as [|x a IH]; [done|].
  rewrite append_cons. cbn [string_existsb]. by rewrite IH, orb_assoc.
Qed.

Lemma simple_name_facts (s : string) :
  simple_name s = true →
  string_forallb plain_char s = true ∧
  string_existsb is_sq s = false ∧
  string_existsb is_dq s = false ∧
  escape_sq s = s.
Proof.
  unfold simple_name, simple_char.
  induction s as [|c s IH]; cbn [string_forallb string_existsb escape_sq]; [done|].
  intros [[[Hp Hs]%andb_prop Hd]%andb_prop Hrest]%andb_prop.
  destruct (IH Hrest) as (H1 & H2 & H3 & H4).
  apply negb_true_iff in Hs, Hd.
  rewrite Hp, Hs, Hd, H1, H2, H3, H4. done.
Qed.

Lemma py_repr_simple (L : Lib) (k : string) :
  simple_name k = true → py_repr L k = sq +:+ k +:+ sq.
Proof.
  intros (H1 & H2 & H3 & H4)%simple_name_facts.
  unfold py_repr. by rewrite H1, H2, H4.
Qed.

Lemma contains_app_l (k s t : string) : contains k s → contains k (s +:+ t).
Proof.
  intros (a & b & ->). exists a, (b +:+ t). by rewrite !append_assoc.
Qed.

Lemma contains_app_r (k s t : string) : contains k t → contains k (s +:+ t).
Proof.
  intros (a & b & ->). exists (s +:+ a), b. by rewrite !append_assoc.
Qed.

Lemma contains_self (k : string) : contains k k.
Proof.
  exists EmptyString, EmptyString. by rewrite append_nil_l, append_nil_r.
Qed.

Lemma join_cons_cons (sep x y : string) (l : list string) :
  join sep (x :: y :: l) = x +:+ sep +:+ join sep (y :: l).
Proof. reflexivity. Qed.

(** The quoted labels joined by [", "]: plain text with single quotes
    and no double quote, in which each label appears quoted. *)
Lemma join_quoted_facts (L : Lib) (l : list string) :
  Forall (λ k, simple_name k = true) l →
  string_forallb plain_char (join ", " (py_repr L <$> l)) = true ∧
  string_existsb is_dq (join ", " (py_repr L <$> l)) = false ∧
  (∀ k, k ∈ l → contains (sq +:+ k +:+ sq) (join ", " (py_repr L <$> l))).
Proof.
  induction 1 as [|k l Hk Hl (IH1 & IH2 & IH3)].
  { repeat split; [done..|]. intros k Hk. by apply elem_of_nil in Hk. }
  destruct (simple_name_facts k Hk) as (H1 & H2 & H3 & H4).
  rewrite fmap_cons, (py_repr_simple L k Hk).
  assert (Hq1 : string_forallb plain_char (sq +:+ k +:+ sq) = true)
    by (rewrite !string_forallb_app, H1; reflexivity).
  assert (Hq2 : string_existsb is_dq (sq +:+ k +:+ sq) = false)
    by (rewrite !string_existsb_app, H3; reflexivity).
  destruct l as [|k' l].
  { cbn [fmap list_fmap join]. repeat split; [done..|].
    intros k0 [->|Hk0]%elem_of_cons; [apply contains_self|by apply elem_of_nil in Hk0]. }
  rewrite fmap_cons, join_cons_cons, <- fmap_cons.
  repeat split.
  - rewrite !string_forallb_app. rewrite string_forallb_app in Hq1.
    rewrite IH1. rewrite H1 in *. reflexivity.
  - rewrite !string_existsb_app. rewrite H3, IH2. reflexivity.
  - intros k0 [->|Hk0]%elem_of_cons.
    + apply contains_app_l, contains_self.
    + apply contains_app_r, contains_app_r. by apply IH3.
Qed.

Lemma missing_message_names_keys (L : Lib) (missing : list string) (k : string) :
  Forall (λ k, simple_name k = true) missing →
  k ∈ missing →
  names_key (py_repr L (py_repr_list L missing +:+ " not in index")) k.
Proof.
  intros Hall Hk. destruct (join_quoted_facts L missing Hall) as (H1 & H2 & H3).
  unfold names_key, py_repr_list.
  set (body := join ", " (py_repr L <$> missing)) in *.
  assert (Hsq : string_existsb is_sq body = true).
  { destruct (H3 k Hk) as (a & b & ->).
    rewrite !string_existsb_app. cbn. by rewrite orb_true_r. }
  unfold py_repr at 1.
  rewrite !string_forallb_app, H1.
  rewrite !string_existsb_app, H2, Hsq.
  cbn [string_forallb string_existsb andb orb negb].
  replace (string_forallb plain_char "[") with true by reflexivity.
  replace (string_forallb plain_char "]") with true by reflexivity.
  replace (string_forallb plain_char " not in index") with true by reflexivity.
  replace (string_existsb is_sq "[") with false by reflexivity.
  replace (string_existsb is_dq "[") with false by reflexivity.
  replace (string_existsb is_dq "]") with false by reflexivity.
  replace (string_existsb is_dq " not in index") with false by reflexivity.
  cbn [andb orb negb].
  apply contains_app_r, contains_app_l, contains_app_l, contains_app_r, contains_app_l.
  by apply H3.
Qed.

(** ** A record that lacks a feature *)



(** ** The [predict] branch catches what its [try] block raises *)

Lemma main_predict_body_Exception (L : Lib) (args : Args) (st st1 : Proc (Booster L))
    (e : exn) :
  main_predict_body L args st = (Raise e, st1) → is_Exception e = true.
Proof.
  destruct st as [[d pm sm names cats] files o e0 t].
  destruct args as [act td vd ad]. intros Hrun.
  run_all Hrun.
  all: simplify_eq; try done.
  all: by eapply predict_features_Exception.
Qed.

Lemma main_predict_caught (L : Lib) (args : Args) (st st1 : Proc (Booster L)) (e : exn) :
  main_predict_body L args st = (Raise e, st1) →
  main_predict L args st =
    (Raise (SystemExit 1),
     mkProc (self st1) (fs st1)
       (out st1 ++ [info_line (failure_log e); dumps_error L (reported_message e)])
       (err st1 ++ [failure_log e]) (trace st1)).
Proof.
  intros Hbody. pose proof (main_predict_body_Exception _ _ _ _ _ Hbody) as Hexc.
  unfold main_predict, try_except. rewrite Hbody.
  destruct st1 as [me1 fs1 o1 e1 t1].
  destruct e as [k msg|code]; [|done].
  destruct k; run_cbv_goal; cbn [failure_log reported_message str_exn];
    by rewrite <- app_assoc.
Qed.

Lemma main_predict_returns (L : Lib) (args : Args) (st st1 : Proc (Booster L)) (u : unit) :
  main_predict_body L args st = (Ret u, st1) →
  main_predict L args st = (Ret (), st1) ∧
  ∃ p, last (out st1) = Some (dumps_prediction L p).
Proof.
  intros Hbody. split.
  { unfold main_predict, try_except. rewrite Hbody. by destruct u. }
  destruct st as [[d pm sm names cats] files o e0 t].
  destruct args as [act td vd ad].
  run_all Hbody; try discriminate Hbody.
  all: simplify_eq; cbn [out]; eexists; apply last_snoc.
Qed.




Ltac main_cbv_goal :=
  cbv beta iota zeta delta
    [mbind M_bind mret M_ret raise lift get_self set_self
     record_event set_fs print stderr_write sys_exit log_info
     makedirs __init__ main of_lib
     negb andb orb
     self fs out err trace
     model_dir price_model sales_model feature_names categorical_features
     action train_data val_data arg_model_dir
     boot fst snd].

Lemma main_enters_predict (L : Lib) (args : Args) (files : gmap string (node (Booster L))) :
  action args = Predict →
  files !! arg_model_dir args ≠ Some File →
  main L args (boot files) = main_predict L args (predict_entry args files).
Proof.
  destruct args as [act td vd d]. cbn [action arg_model_dir]. intros -> Hd.
  unfold predict_entry, startup_msg, info_line. cbn [action arg_model_dir train_data].
  main_cbv_goal.
  destruct (files !! d) as [[|entries]|]; done.
Qed.




(** ** Rows that pass the outlier filter *)

Lemma mask_rows_fmap_Forall (f : list cell → bool) (rs : list (list cell)) :
  Forall (λ r, f r = true) (mask_rows (f <$> rs) rs).
Proof.
  induction rs as [|r rs IH]; simpl; [constructor|].
  destruct (f r) eqn:Hf; [by constructor|done].
Qed.

Lemma cell_ge_number (x bound : cell) : cell_ge x bound = true → ∃ q, x = CNum q.
Proof. destruct x; try done. by eexists. Qed.

Lemma remove_outliers_step_kept (L : Lib) (df df1 : DataFrame) (col : string) (lq uq : Q) :
  remove_outliers_step L lq uq df col = Ret df1 →
  ∃ i, col_index (columns df) col = Some i ∧
       columns df1 = columns df ∧
       category_cols df1 = category_cols df ∧
       rows df1 `sublist_of` rows df ∧
       Forall (λ row, ∃ q, cell_at i row = CNum q) (rows df1).
Proof.
  rewrite remove_outliers_step_bounds.
  unfold column_bounds, keep_within, series. pure_simpl.
  destruct (col_index (columns df) col) as [i|]; [|done].
  destruct (quantile _ lq) as [lo|]; [|done].
  destruct (quantile _ uq) as [hi|]; [|done].
  intros [= <-]. exists i. cbn [columns category_cols rows filter_mask].
  split; [done|]. split; [done|]. split; [done|]. split; [apply mask_rows_sublist|].
  rewrite <- list_fmap_compose.
  eapply Forall_impl; [apply mask_rows_fmap_Forall|].
  intros row [Hge _]%andb_prop. by eapply cell_ge_number.
Qed.

Lemma remove_outliers_kept (L : Lib) (cols : list string) (lq uq : Q) :
  ∀ df df', remove_outliers L df cols lq uq = Ret df' →
    columns df' = columns df ∧
    rows df' `sublist_of` rows df ∧
    ∀ c, c ∈ cols → number_col df' c.
Proof.
  induction cols as [|col cols IH]; intros df df'; cbn [remove_outliers].
  { intros [= <-]. split; [done|]. split; [done|]. intros c Hc. by apply elem_of_nil in Hc. }
  pure_simpl.
  destruct (remove_outliers_step L lq uq df col) as [df1|] eqn:Hstep; [|done].
  intros Hrest.
  destruct (remove_outliers_step_kept L df df1 col lq uq Hstep)
    as (i & Hi & Hc1 & _ & Hsub1 & Hnum1).
  destruct (IH df1 df' Hrest) as (Hc' & Hsub' & Hnum').
  split; [congruence|]. split; [by etrans|].
  intros c [->|Hc]%elem_of_cons; [|by apply Hnum'].
  exists i. split; [congruence|]. by eapply Forall_sublist.
Qed.

Lemma filter_Forall_id {A} (P : A → Prop) `{∀ x, Decision (P x)} (l : list A) :
  Forall P l → filter P l = l.
Proof.
  induction 1 as [|x l Hx _ IH]; [done|].
  rewrite filter_cons, decide_True by done. by rewrite IH.
Qed.

Lemma row_has_na_numbers (df : DataFrame) (cols : list string) (row : list cell) :
  (∀ c, c ∈ cols → ∃ i, col_index (columns df) c = Some i ∧ ∃ q, cell_at i row = CNum q) →
  row_has_na (omap (col_index (columns df)) cols) row = false.
Proof.
  intros Hnum. unfold row_has_na.
  apply not_true_is_false. intros (i & Hi & Hna)%existsb_exists.
  apply list_elem_of_In, list_elem_of_omap in Hi as (c & Hc & Hci).
  destruct (Hnum c Hc) as (i' & Hi' & q & Hq).
  rewrite Hi' in Hci. injection Hci as ->. by rewrite Hq in Hna.
Qed.

(** [dropna] on columns that hold numbers only removes nothing. *)
Lemma dropna_number_cols (L : Lib) (df : DataFrame) (cols : list string) :
  (∀ c, c ∈ cols → number_col df c) → dropna L df cols = Ret df.
Proof.
  intros Hnum. unfold dropna.
  assert (Hpresent : filter (λ c, c ∉ columns df) cols = []).
  { apply filter_absent_nil. intros c Hc. destruct (Hnum c Hc) as (i & Hi & _).
    apply col_index_lookup in Hi. by eapply list_elem_of_lookup_2. }
  rewrite Hpresent. f_equal.
  rewrite filter_Forall_id; [by destruct df|].
  apply Forall_forall. intros row Hrow. apply row_has_na_numbers.
  intros c Hc. destruct (Hnum c Hc) as (i & Hi & Hall).
  exists i. split; [done|]. by apply (proj1 (Forall_forall _ _) Hall).
Qed.

(** X1: every row that [remove_outliers] keeps holds a number in each
    of the listed columns, so a row with a missing value there is removed
    as well; [dropna] on the same columns then removes nothing more. *)
Theorem remove_outliers_leaves_no_missing (L : Lib) (df df' : DataFrame)
    (cols : list string) (lq uq : Q) :
  remove_outliers L df cols lq uq = Ret df' →
  (∀ c, c ∈ cols → number_col df' c) ∧
  dropna L df' cols = Ret df'.
Proof.
  intros Hrun. destruct (remove_outliers_kept L cols lq uq df df' Hrun) as (_ & _ & Hnum).
  split; [exact Hnum|]. by apply dropna_number_cols.
Qed.

Lemma remove_outliers_leaves_no_missing_witness :
  (∀ c, c ∈ ["price_target"] → number_col (mkDF ["price_target"] [] [ [CNum 2] ]) c) ∧
  dropna sample_lib (mkDF ["price_target"] [] [ [CNum 2] ]) ["price_target"]
    = Ret (mkDF ["price_target"] [] [ [CNum 2] ]).
Proof.
  apply (remove_outliers_leaves_no_missing sample_lib gap_frame _ _ (1 # 100) (99 # 100)).
  vm_compute. reflexivity.
Defined.

(** ** What [validate_data] prints *)

Lemma required_columns_simple : Forall (λ c, simple_name c = true) required_columns.
Proof. unfold required_columns. repeat constructor. Qed.

(** X2: [validate_data] changes nothing but stdout.  It prints nothing
    when it accepts the frame and exactly one line when it rejects it.
    When required columns are absent the line lists them, in the order
    of [required_columns] and each between single quotes, whatever the
    number of rows; the line about too few rows is printed only when all
    required columns are there. *)
Theorem validate_data_prints (L : Lib) (df : DataFrame) (st : Proc (Booster L)) :
  ∃ b lines,
    validate_data L df st =
      (Ret b, mkProc (self st) (fs st) (out st ++ lines) (err st) (trace st)) ∧
    (b = true → lines = []) ∧
    (b = false → ∃ l, lines = [l]) ∧
    ((∃ c, c ∈ required_columns ∧ c ∉ columns df) →
       lines = ["Отсутствуют обязательные столбцы: " +:+
                py_repr_list L (filter (λ c, c ∉ columns df) required_columns)] ∧
       ∀ c, c ∈ required_columns → c ∉ columns df →
            Forall (λ l, names_key l c) lines) ∧
    ((∀ c, c ∈ required_columns → c ∈ columns df) → (nrows df < 10)%nat →
       lines = ["Недостаточно данных для обучения"]).
Proof.
  destruct st as [me files o e t].
  unfold validate_data. run_cbv_goal.
  destruct (filter (λ col, col ∉ columns df) required_columns) as [|m ms] eqn:Hmiss.
  - pose proof (proj1 (filter_absent_nil _ _) Hmiss) as Hall.
    destruct (nrows df <? 10)%nat eqn:Hn.
    + eexists false, [_]. split; [reflexivity|].
      split; [done|]. split; [by eexists|].
      split; [intros (c & Hc & Hnc); destruct Hnc; by apply Hall|]. done.
    + exists true, []. rewrite app_nil_r. split; [reflexivity|].
      split; [done|]. split; [done|].
      split; [intros (c & Hc & Hnc); destruct Hnc; by apply Hall|].
      intros _ Hlt. apply Nat.ltb_ge in Hn. lia.
  - eexists false, [_]. split; [reflexivity|].
    split; [done|]. split; [by eexists|]. split.
    + intros _. split; [done|]. intros c Hc Hnc. constructor; [|constructor].
      assert (Hin : c ∈ m :: ms) by (rewrite <- Hmiss; by apply list_elem_of_filter).
      assert (Hsimple : Forall (λ k, simple_name k = true) (m :: ms)).
      { rewrite <- Hmiss. apply Forall_forall. intros k [_ Hk]%list_elem_of_filter.
        by apply (proj1 (Forall_forall _ _) required_columns_simple). }
      destruct (join_quoted_facts L (m :: ms) Hsimple) as (_ & _ & Hnamed).
      unfold names_key, py_repr_list.
      apply contains_app_r, contains_app_r, contains_app_l. by apply Hnamed.
    + intros Hall. exfalso.
      assert (Hm : m ∈ filter (λ col, col ∉ columns df) required_columns)
        by (rewrite Hmiss; by left).
      apply list_elem_of_filter in Hm as [Hnm Hm]. by apply Hnm, Hall.
Qed.

(** ** What [_prepare_features] changes in the frame *)

Lemma cell_to_int_not_missing (L : Lib) (c c' : cell) :
  cell_to_int L c = Ret c' → is_na c = false.
Proof. by destruct c. Qed.

Lemma astype_int_Ret (L : Lib) (s s' : list cell) :
  astype_int L s = Ret s' →
  length s' = length s ∧ Forall (λ c, is_na c = false) s.
Proof.
  revert s'. induction s as [|c s IH]; intros s'; cbn [astype_int].
  { by intros [= <-]. }
  pure_simpl.
  destruct (cell_to_int L c) as [c'|] eqn:Hc; [|done].
  destruct (astype_int L s) as [r|]; [|done].
  intros [= <-]. destruct (IH r eq_refl) as [Hlen Hall].
  split; [simpl; by rewrite Hlen|].
  constructor; [by eapply cell_to_int_not_missing|done].
Qed.

Lemma cell_at_present (i : nat) (row : list cell) :
  is_na (cell_at i row) = false → (i < length row)%nat.
Proof.
  unfold cell_at. intros Hc. apply lookup_lt_is_Some.
  destruct (row !! i); [by eexists|done].
Qed.

(** Writing the values [vs] at place [i] of rows that all have a cell
    there: the column at [i] becomes [vs]. *)
Lemma zip_with_insert_column (i : nat) (rs : list (list cell)) (vs : list cell) :
  length vs = length rs →
  Forall (λ row, (i < length row)%nat) rs →
  cell_at i <$> zip_with (λ row v, <[i:=v]> row) rs vs = vs.
Proof.
  revert vs. induction rs as [|r rs IH]; intros [|v vs] Hlen Hall; simplify_eq/=; [done|].
  apply Forall_cons in Hall as [Hr Hall].
  f_equal; [|by apply IH].
  unfold cell_at. by rewrite list_lookup_insert_eq.
Qed.

Lemma assign_astype_int_Ret (L : Lib) (df df' : DataFrame) (c : string) :
  assign_astype_int L df c = Ret df' →
  ∃ i s',
    col_index (columns df) c = Some i ∧
    astype_int L (cell_at i <$> rows df) = Ret s' ∧
    columns df' = columns df ∧
    nrows df' = nrows df ∧
    cell_at i <$> rows df' = s' ∧
    ∀ j, j ≠ i → cell_at j <$> rows df' = cell_at j <$> rows df.
Proof.
  unfold assign_astype_int, series, set_column. pure_simpl.
  destruct (col_index (columns df) c) as [i|] eqn:Hi; [|done].
  destruct (astype_int L (cell_at i <$> rows df)) as [s'|] eqn:Hs; [|done].
  intros [= <-]. exists i, s'. cbn [columns rows nrows].
  destruct (astype_int_Ret L _ _ Hs) as [Hlen Hall]. rewrite length_fmap in Hlen.
  destruct (zip_with_insert_rows i (rows df) s' Hlen) as [Hn Hother].
  repeat split; try done.
  apply zip_with_insert_column; [done|].
  apply Forall_fmap in Hall. eapply Forall_impl; [exact Hall|].
  intros row Hrow. by apply cell_at_present.
Qed.

Lemma series_as_cells (L : Lib) (df df' : DataFrame) (c : string) :
  columns df' = columns df →
  (∀ i, col_index (columns df) c = Some i →
        cell_at i <$> rows df' = cell_at i <$> rows df) →
  series L df' c = series L df c.
Proof.
  intros Hcols Hcells. unfold series. rewrite Hcols.
  destruct (col_index (columns df) c) as [i|] eqn:Hi; [|done].
  by rewrite (Hcells i).
Qed.

(** The cells of [df[keys]] are those of [df]. *)
Lemma take_cells_lookup (cols keys : list string) (row : list cell) (j : nat) (k : string) :
  (∀ k, k ∈ keys → k ∈ cols) →
  keys !! j = Some k →
  ∃ i, col_index cols k = Some i ∧
       cell_at j (take_cells (omap (col_index cols) keys) row) = cell_at i row.
Proof.
  revert j. induction keys as [|k0 keys IH]; intros j Hall Hj; [done|].
  destruct (col_index_Some cols k0) as (i0 & Hi0 & _); [apply Hall; by left|].
  cbn [omap list_omap]. rewrite Hi0. cbn [take_cells fmap list_fmap].
  destruct j as [|j]; simplify_eq/=.
  - by exists i0.
  - apply IH; [|done]. intros k' Hk'. apply Hall. by right.
Qed.

Lemma select_columns_series (L : Lib) (df X : DataFrame) (keys : list string) (k : string) :
  select_columns L df keys = Ret X →
  k ∈ keys →
  nrows X = nrows df ∧ series L X k = series L df k.
Proof.
  unfold select_columns.
  destruct (filter (λ c, c ∉ columns df) keys) as [|m ms] eqn:Hmiss;
    [|by destruct (_ =? _)%nat].
  pose proof (proj1 (filter_absent_nil _ _) Hmiss) as Hall.
  intros [= <-] Hk. split; [unfold nrows; cbn [rows]; apply length_fmap|].
  unfold series. cbn [columns rows].
  destruct (col_index_Some keys k Hk) as (j & -> & Hj).
  destruct (col_index_Some (columns df) k (Hall k Hk)) as (i & Hi & _). rewrite Hi.
  f_equal. rewrite <- list_fmap_compose. apply list_fmap_ext. intros _ row _. simpl.
  destruct (take_cells_lookup (columns df) keys row j k Hall Hj) as (i' & Hi' & ->).
  congruence.
Qed.

Lemma cast_categories_Ret (L : Lib) (cats : list string) :
  ∀ df df', cast_categories L df cats = Ret df' →
            columns df' = columns df ∧ rows df' = rows df.
Proof.
  intros df df' H. destruct (cast_categories_ok L cats df) as (df'' & H' & ? & ?).
  rewrite H in H'. by injection H' as <-.
Qed.

(** The steps of a call of [_prepare_features] that returns. *)
Lemma prepare_features_steps (L : Lib) (df df' X : DataFrame) (names cats : list string) :
  _prepare_features L df = Ret (df', X, names, cats) →
  ∃ df1 df2,
    assign_astype_int L df "is_weekend" = Ret df1 ∧
    assign_astype_int L df1 "is_holiday" = Ret df2 ∧
    cast_categories L df2 categorical_feature_names = Ret df' ∧
    select_columns L df' schema_feature_names = Ret X ∧
    names = schema_feature_names ∧ cats = categorical_feature_names.
Proof.
  unfold _prepare_features. pure_simpl.
  destruct (assign_astype_int L df "is_weekend") as [df1|] eqn:H1; [|done].
  destruct (assign_astype_int L df1 "is_holiday") as [df2|] eqn:H2; [|done].
  destruct (cast_categories L df2 categorical_feature_names) as [df3|] eqn:H3; [|done].
  change (numerical_feature_names ++ categorical_feature_names) with schema_feature_names.
  destruct (select_columns L df3 schema_feature_names) as [X'|] eqn:H4; [|done].
  intros [= <- <- <- <-]. by exists df1, df2.
Qed.

(** A column other than the two flags is the same before and after. *)
Lemma prepare_features_keeps_series (L : Lib) (df df' X : DataFrame)
    (names cats : list string) (c : string) :
  _prepare_features L df = Ret (df', X, names, cats) →
  c ≠ "is_weekend" → c ≠ "is_holiday" →
  columns df' = columns df ∧ nrows df' = nrows df ∧ nrows X = nrows df ∧
  series L df' c = series L df c.
Proof.
  intros (df1 & df2 & H1 & H2 & H3 & H4 & _)%prepare_features_steps Hw Hh.
  destruct (assign_astype_int_Ret L _ _ _ H1) as (i1 & s1 & Hi1 & _ & Hc1 & Hn1 & _ & Ho1).
  destruct (assign_astype_int_Ret L _ _ _ H2) as (i2 & s2 & Hi2 & _ & Hc2 & Hn2 & _ & Ho2).
  destruct (cast_categories_Ret L _ _ _ H3) as [Hc3 Hr3].
  rewrite Hc1 in Hi2.
  assert (Hcols : columns df' = columns df) by congruence.
  assert (Hrows : nrows df' = nrows df) by (unfold nrows in *; congruence).
  split; [done|]. split; [done|]. split.
  - destruct (select_columns_series L df' X schema_feature_names "price" H4) as [-> _];
      [unfold schema_feature_names; by left|done].
  - apply series_as_cells; [done|]. intros i Hi. rewrite Hr3.
    rewrite Ho2, Ho1; [done| |].
    + intros ->. by pose proof (col_index_inj _ _ _ _ Hi Hi1).
    + intros ->. by pose proof (col_index_inj _ _ _ _ Hi Hi2).
Qed.



(** ** The feature matrix at predict time and at train time *)

Lemma assign_astype_int_columns (L : Lib) (df df' : DataFrame) (c : string) :
  assign_astype_int L df c = Ret df' → columns df' = columns df.
Proof.
  unfold assign_astype_int, series, set_column. pure_simpl.
  destruct (col_index (columns df) c); [|done].
  destruct (astype_int L _); [|done]. by intros [= <-].
Qed.

(** X4: for a record that has both flags, a predictor holding the schema
    of the script builds at predict time the matrix [_prepare_features]
    builds from the one-row frame of the record, and fails as it does. *)
Theorem predict_features_as_in_training (L : Lib) (me : Predictor (Booster L))
    (record : list (string * cell)) :
  feature_names me = Some schema_feature_names →
  categorical_features me = Some categorical_feature_names →
  "is_weekend" ∈ record.*1 → "is_holiday" ∈ record.*1 →
  predict_features L me record =
    ('(_, X, _, _) ← _prepare_features L (frame_of_record record); Ret X).
Proof.
  intros Hn Hc Hw Hh. unfold predict_features, _prepare_features. pure_simpl.
  rewrite Hn, Hc.
  assert (Hw' : has_col (frame_of_record record) "is_weekend" = true)
    by (by apply bool_decide_eq_true).
  rewrite Hw'.
  destruct (assign_astype_int L (frame_of_record record) "is_weekend") as [df1|] eqn:H1;
    [|done].
  assert (Hh' : has_col df1 "is_holiday" = true).
  { apply bool_decide_eq_true. by rewrite (assign_astype_int_columns L _ _ _ H1). }
  rewrite Hh'.
  destruct (assign_astype_int L df1 "is_holiday") as [df2|]; [|done].
  destruct (cast_categories L df2 categorical_feature_names) as [df3|]; [|done].
  change (numerical_feature_names ++ categorical_feature_names) with schema_feature_names.
  by destruct (select_columns L df3 schema_feature_names).
Qed.

Lemma predict_features_as_in_training_witness :
  predict_features sample_lib
    (mkPredictor "models" None None (Some schema_feature_names)
       (Some categorical_feature_names)) sample_record =
  ('(_, X, _, _) ← _prepare_features sample_lib (frame_of_record sample_record); Ret X).
Proof.
  apply predict_features_as_in_training; [reflexivity|reflexivity|..];
    apply (bool_decide_unpack _); vm_compute; exact I.
Defined.

(** ** What [save_models] writes *)

(** X5: [save_models] touches nothing but the three artifacts of the
    model directory: the predictor, both streams, every other directory
    and every other file of the model directory stay as they were.  When
    it returns, each artifact whose field is set holds that field and the
    others are left as found (the schema needs both lists); a predictor
    with no field set makes it return without any access to the file
    system. *)
Theorem save_models_writes_artifacts_only (L : Lib) (st st' : Proc (Booster L))
    (r : outcome unit) :
  save_models L st = (r, st') →
  self st' = self st ∧ out st' = out st ∧ err st' = err st ∧
  (∀ d', d' ≠ model_dir (self st) → fs st' !! d' = fs st !! d') ∧
  (∀ entries', fs st' !! model_dir (self st) = Some (Dir entries') →
     ∃ entries, fs st !! model_dir (self st) = Some (Dir entries) ∧
       (∀ name, name ∉ artifact_names → entries' !! name = entries !! name) ∧
       (r = Ret () →
          entries' !! "price_model.pkl" =
            saved_entry (Pickled <$> price_model (self st)) (entries !! "price_model.pkl") ∧
          entries' !! "sales_model.pkl" =
            saved_entry (Pickled <$> sales_model (self st)) (entries !! "sales_model.pkl") ∧
          entries' !! "feature_info.json" =
            saved_entry (schema_doc (self st)) (entries !! "feature_info.json"))) ∧
  (price_model (self st) = None → sales_model (self st) = None →
   schema_doc (self st) = None → r = Ret () ∧ st' = st).
Proof.
  destruct st as [[d pm sm names cats] files o e t]. intros Hrun.
  run_cbv_in Hrun.
  repeat run_step_in Hrun.
  all: injection Hrun as <- <-; cbn [self fs out err trace model_dir price_model sales_model].
  all: split; [done|]; split; [done|]; split; [done|].
  all: split; [intros d' Hd'; by simplify_map_eq|].
  all: (split; [|try done; intros; simplify_eq]).
  all: intros entries' Hen; simplify_map_eq.
  all: try (eexists; split; [reflexivity|]).
  all: try (eexists; split; [eassumption|]).
  all: unfold artifact_names, schema_doc, saved_entry; cbn [fmap option_fmap option_map feature_names categorical_features].
  all: (split; [intros name Hname; repeat rewrite not_elem_of_cons in Hname;
               destruct Hname as (? & ? & ? & _); by simplify_map_eq|]).
  all: intros Hr; try discriminate Hr.
  all: repeat split; by simplify_map_eq.
Qed.

Lemma save_models_writes_artifacts_only_witness :
  self (save_models sample_lib sample_bundle_state).2 = self sample_bundle_state ∧
  fs (save_models sample_lib sample_bundle_state).2 !! "data" = None.
Proof.
  destruct (save_models sample_lib sample_bundle_state) as [r st'] eqn:Hrun.
  destruct (save_models_writes_artifacts_only sample_lib _ _ _ Hrun)
    as (Hself & _ & _ & Hother & _).
  split; [exact Hself|]. cbn [snd]. by rewrite Hother.
Defined.

(** ** What [load_models] does besides returning *)

(** X6: [load_models] only reads: the file system, stderr and the model
    directory of the predictor are as before.  It opens the artifacts in
    the order price model, sales model, schema, and stops at the first it
    cannot use; when it returns [True] it has opened all three and printed
    nothing, when it returns [False] it has printed one line, on stdout,
    that starts with [Error loading models: ]. *)
Theorem load_models_reads_only (L : Lib) (st : Proc (Booster L)) :
  ∃ b st' n lines,
    load_models L st = (Ret b, st') ∧
    fs st' = fs st ∧ err st' = err st ∧
    model_dir (self st') = model_dir (self st) ∧
    trace st' = trace st ++ take n (EOpenRead (model_dir (self st)) <$> artifact_names) ∧
    out st' = out st ++ lines ∧
    (b = true → n = 3%nat ∧ lines = []) ∧
    (b = false → (1 ≤ n ≤ 3)%nat ∧ ∃ msg, lines = ["Error loading models: " +:+ msg]).
Proof.
  destruct st as [[d pm sm names cats] files o e t].
  unfold load_models, load_models_body. run_cbv_goal.
  repeat run_step.
  all: unfold artifact_names; cbn [fmap list_fmap].
  all: first
    [ eexists true, _, 3%nat, []; rewrite app_nil_r, <- !app_assoc;
      split; [reflexivity|]; repeat split; done
    | eexists false, _, 1%nat, [_];
      split; [reflexivity|]; repeat split; try done; try lia; eexists; reflexivity
    | eexists false, _, 2%nat, [_]; rewrite <- !app_assoc;
      split; [reflexivity|]; repeat split; try done; try lia; eexists; reflexivity
    | eexists false, _, 3%nat, [_]; rewrite <- !app_assoc;
      split; [reflexivity|]; repeat split; try done; try lia; eexists; reflexivity ].
Qed.



(** ** [predict] with the models in memory and from disk *)

(** X8: when both models are in memory [predict] does not look at the
    model directory: the predictor, the file system and both streams are
    unchanged, and the only calls made are those to [Booster.predict] (at
    most two).  The result is that of the models in memory on the matrix
    built from the record, the same matrix for both. *)
Theorem predict_uses_models_in_memory (L : Lib) (record : list (string * cell))
    (st : Proc (Booster L)) (pm sm : Booster L) :
  price_model (self st) = Some pm →
  sales_model (self st) = Some sm →
  ∃ n,
    predict L record st =
      (predict_with L (self st) pm sm record,
       mkProc (self st) (fs st) (out st) (err st)
              (trace st ++ replicate n EBoosterPredict)) ∧
    (n ≤ 2)%nat.
Proof.
  destruct st as [[d pm0 sm0 names cats] files o e t].
  cbn [self price_model sales_model]. intros -> ->.
  unfold predict_with, predict_first. run_cbv_goal. pure_simpl.
  rewrite bool_decide_eq_false_2 by (intros [?|?]; done).
  destruct (predict_features L _ record) as [X|e0]; [|exists 0%nat; cbn [replicate]; rewrite app_nil_r; split; [done|lia]].
  destruct (booster_predict L pm X) as [[|p ps]|k msg]; cbn [of_lib];
    [exists 1%nat; split; [done|lia] | | exists 1%nat; split; [done|lia]].
  destruct (booster_predict L sm X) as [[|s ss]|k msg]; cbn [of_lib];
    exists 2%nat; rewrite <- app_assoc; (split; [done|lia]).
Qed.

Lemma predict_uses_models_in_memory_witness :
  (predict sample_lib sample_record sample_bundle_state).1
    = predict_with sample_lib (self sample_bundle_state) 3%Z 4%Z sample_record.
Proof.
  destruct (predict_uses_models_in_memory sample_lib sample_record sample_bundle_state
              3%Z 4%Z eq_refl eq_refl) as (n & Hrun & _).
  by rewrite Hrun.
Defined.

Lemma artifacts_stored_predictor {B} (files : gmap string (node B)) (d : string) :
  ¬ artifacts_ok files d → stored_predictor files d = None.
Proof.
  intros Hbad. destruct (stored_predictor files d) as [me|] eqn:Hme; [|done].
  destruct Hbad. revert Hme. unfold stored_predictor, loaded_predictor, artifacts_ok.
  destruct (files !! d) as [[|en]|]; try done.
  destruct (en !! "price_model.pkl") as [[pm| |]|] eqn:Hp; try done.
  destruct (en !! "sales_model.pkl") as [[sm| |]|] eqn:Hs; try done.
  destruct (en !! "feature_info.json") as [[|doc|]|] eqn:Hj; try done.
  destruct (doc !! "feature_names") as [names|] eqn:Hn; try done.
  destruct (doc !! "categorical_features") as [cats|] eqn:Hc; try done.
  intros _. by exists en, pm, sm, doc, names, cats.
Qed.

Ltac rewrite_calls :=
  repeat match goal with
  | H : predict_features _ _ _ = _ |- _ => rewrite H; clear H
  | H : booster_predict _ _ _ = _ |- _ => rewrite H; clear H
  end.

(** How a run of [predict] ends when a model is missing in memory. *)
Lemma predict_run_unloaded (L : Lib) (record : list (string * cell))
    (st st' : Proc (Booster L)) (r : outcome Prediction) :
  predict L record st = (r, st') →
  price_model (self st) = None ∨ sales_model (self st) = None →
  fs st' = fs st ∧ err st' = err st ∧
  match stored_predictor (fs st) (model_dir (self st)) with
  | Some me =>
      self st' = me ∧ out st' = out st ∧
      ∃ pm sm, price_model me = Some pm ∧ sales_model me = Some sm ∧
               r = predict_with L me pm sm record
  | None =>
      r = Raise (Exc ValueError models_unavailable_msg) ∧
      ∃ msg, out st' = out st ++ ["Error loading models: " +:+ msg]
  end.
Proof.
  intros Hrun Hnone.
  destruct st as [[d pm0 sm0 names0 cats0] files o e t].
  cbn [self fs out err model_dir price_model sales_model] in *.
  run_all Hrun.
  all: try (apply bool_decide_eq_false in Heqb; destruct Heqb;
            destruct Hnone; [by left|by right]).
  all: injection Hrun as <- <-; cbn [self fs out err].
  all: split; [done|]; split; [done|].
  all: try (rewrite (artifacts_stored_predictor _ _ Hbad); split; [done|by eexists]).
  all: unfold stored_predictor, loaded_predictor;
       rewrite Hdir, Hpm, Hsm, Hdoc, Hnames, Hcats.
  all: split; [done|]; split; [done|]; eexists _, _; split; [done|]; split; [done|].
  all: unfold predict_with, predict_first; pure_simpl; rewrite_calls; done.
Qed.



(** ** Runs of [train] *)








(** How a run of [train] that returns went. *)
Lemma train_returns (L : Lib) (tp vp : string) (st st' : Proc (Booster L))
    (metrics : Metrics) :
  train L tp vp st = (Ret metrics, st') →
  ∃ train_df val_df t v t' v' X_train X_val y_price y_sales yv_price yv_sales pm sm entries,
    read_csv L tp = LOk train_df ∧ read_csv L vp = LOk val_df ∧
    valid_frame train_df ∧ valid_frame val_df ∧
    train_frames L train_df val_df = Ret (t, v) ∧
    _prepare_features L t
      = Ret (t', X_train, schema_feature_names, categorical_feature_names) ∧
    _prepare_features L v
      = Ret (v', X_val, schema_feature_names, categorical_feature_names) ∧
    series L t' "price_target" = Ret y_price ∧
    series L t' "sales_target" = Ret y_sales ∧
    series L v' "price_target" = Ret yv_price ∧
    series L v' "sales_target" = Ret yv_sales ∧
    lgb_train L X_train y_price categorical_feature_names X_val yv_price = LOk pm ∧
    lgb_train L X_train y_sales categorical_feature_names X_val yv_sales = LOk sm ∧
    fs st !! model_dir (self st) = Some (Dir entries) ∧
    metrics = mkMetrics (best_iteration L pm) (best_score L pm)
                        (best_iteration L sm) (best_score L sm) ∧
    self st' = mkPredictor (model_dir (self st)) (Some pm) (Some sm)
                 (Some schema_feature_names) (Some categorical_feature_names) ∧
    fs st' = <[model_dir (self st) := Dir (bundle_entries pm sm entries)]> (fs st) ∧
    trace st' = trace st ++
      [EReadCsv tp; EReadCsv vp; ELgbTrain; ELgbTrain;
       EOpenWrite (model_dir (self st)) "price_model.pkl";
       EOpenWrite (model_dir (self st)) "sales_model.pkl";
       EOpenWrite (model_dir (self st)) "feature_info.json"] ∧
    last (out st') = Some (dumps_metrics L metrics).
Proof.
  destruct st as [[d pm0 sm0 names0 cats0] files o e0 t0]. intros Hrun.
  run_all Hrun; try discriminate Hrun.
  injection Hrun as <- <-. simplify_eq. cbn [self fs out err trace model_dir].
  repeat match goal with
  | Hp : _prepare_features L _ = Ret (_, _, ?names, ?cats) |- _ =>
      is_var names;
      destruct (prepare_features_names L _ _ _ _ _ Hp) as (-> & -> & _)
  end.
  eexists _, _, _, _, _, _, _, _. eexists _, _, _, _, _, _, _.
  repeat (split; [first [eassumption | done]|]).
  split; [unfold bundle_entries; by rewrite !insert_insert_eq|].
  split; [by rewrite <- !app_assoc|].
  apply last_snoc.
Qed.

(** ** The data [train] fits the models on *)

Lemma dropna_Ret (L : Lib) (df df' : DataFrame) (subset : list string) :
  dropna L df subset = Ret df' →
  columns df' = columns df ∧
  rows df' `sublist_of` rows df ∧
  ∀ c, c ∈ subset → complete_col df' c.
Proof.
  unfold dropna.
  destruct (filter (λ c, c ∉ columns df) subset) eqn:Hmiss; [|done].
  pose proof (proj1 (filter_absent_nil _ _) Hmiss) as Hall.
  intros [= <-]. cbn [columns rows]. split; [done|]. split; [apply sublist_filter|].
  intros c Hc. destruct (col_index_Some (columns df) c (Hall c Hc)) as (i & Hi & _).
  exists i. cbn [columns rows]. split; [done|].
  apply Forall_forall. intros row [Hna _]%list_elem_of_filter.
  apply not_true_is_false. intros Hi'.
  assert (Hex : row_has_na (omap (col_index (columns df)) subset) row = true).
  { unfold row_has_na. apply existsb_exists. exists i. split; [|done].
    apply list_elem_of_In, list_elem_of_omap. by exists c. }
  congruence.
Qed.

Lemma number_col_sublist (df df' : DataFrame) (c : string) :
  columns df' = columns df →
  rows df' `sublist_of` rows df →
  number_col df c → number_col df' c.
Proof.
  intros Hc Hsub (i & Hi & Hall). exists i. rewrite Hc. split; [done|].
  by eapply Forall_sublist.
Qed.

Lemma train_frames_targets (L : Lib) (train_df val_df t v : DataFrame) :
  train_frames L train_df val_df = Ret (t, v) →
  (∀ c, c ∈ target_columns → number_col t c) ∧
  (∀ c, c ∈ target_columns → complete_col v c) ∧
  (nrows t ≤ nrows train_df)%nat ∧ (nrows v ≤ nrows val_df)%nat.
Proof.
  unfold train_frames. pure_simpl.
  destruct (remove_outliers L train_df _ _ _) as [f|] eqn:Hf; [|done].
  destruct (dropna L f _) as [t0|] eqn:Ht; [|done].
  destruct (dropna L val_df _) as [v0|] eqn:Hv; [|done].
  intros [= <- <-].
  destruct (remove_outliers_kept L _ _ _ _ _ Hf) as (Hcf & Hsf & Hnf).
  destruct (dropna_Ret L _ _ _ Ht) as (Hct & Hst & _).
  destruct (dropna_Ret L _ _ _ Hv) as (Hcv & Hsv & Hnv).
  split; [intros c Hc; eapply number_col_sublist; eauto|].
  split; [done|]. unfold nrows. split.
  - etrans; by apply sublist_length.
  - by apply sublist_length.
Qed.

Lemma series_number_col (L : Lib) (df : DataFrame) (c : string) (s : list cell) :
  series L df c = Ret s → number_col df c →
  length s = nrows df ∧ Forall (λ x, ∃ q, x = CNum q) s.
Proof.
  unfold series. intros Hs (i & Hi & Hall). rewrite Hi in Hs. injection Hs as <-.
  split; [apply length_fmap|]. by apply Forall_fmap.
Qed.

Lemma series_complete_col (L : Lib) (df : DataFrame) (c : string) (s : list cell) :
  series L df c = Ret s → complete_col df c →
  length s = nrows df ∧ Forall (λ x, is_na x = false) s.
Proof.
  unfold series. intros Hs (i & Hi & Hall). rewrite Hi in Hs. injection Hs as <-.
  split; [apply length_fmap|]. by apply Forall_fmap.
Qed.

(** X10: a run of [train] that returns has read both files, found both
    frames valid, and called [lgb.train] twice on the same pair of
    matrices, which have the 26 schema columns.  Each matrix comes with
    one price label and one sales label per row; the labels of the
    training rows are all numbers (a row with a missing target has left
    both frames) and no validation label is missing.  No more rows are
    used than the files hold.  The boosters returned are the models of
    the predictor afterwards. *)
Theorem train_fits_aligned_data (L : Lib) (tp vp : string) (st st' : Proc (Booster L))
    (metrics : Metrics) :
  train L tp vp st = (Ret metrics, st') →
  ∃ train_df val_df X_train X_val y_price y_sales yv_price yv_sales pm sm,
    read_csv L tp = LOk train_df ∧ read_csv L vp = LOk val_df ∧
    valid_frame train_df ∧ valid_frame val_df ∧
    lgb_train L X_train y_price categorical_feature_names X_val yv_price = LOk pm ∧
    lgb_train L X_train y_sales categorical_feature_names X_val yv_sales = LOk sm ∧
    price_model (self st') = Some pm ∧ sales_model (self st') = Some sm ∧
    columns X_train = schema_feature_names ∧ columns X_val = schema_feature_names ∧
    (nrows X_train ≤ nrows train_df)%nat ∧ (nrows X_val ≤ nrows val_df)%nat ∧
    length y_price = nrows X_train ∧ length y_sales = nrows X_train ∧
    length yv_price = nrows X_val ∧ length yv_sales = nrows X_val ∧
    Forall (λ x, ∃ q, x = CNum q) y_price ∧ Forall (λ x, ∃ q, x = CNum q) y_sales ∧
    Forall (λ x, is_na x = false) yv_price ∧ Forall (λ x, is_na x = false) yv_sales.
Proof.
  intros (train_df & val_df & t & v & t' & v' & X_train & X_val & y_price & y_sales
          & yv_price & yv_sales & pm & sm & entries & Hr1 & Hr2 & Hv1 & Hv2 & Hframes
          & Hpt & Hpv & Hy1 & Hy2 & Hy3 & Hy4 & Hpm & Hsm & _ & _ & Hself & _)%train_returns.
  exists train_df, val_df, X_train, X_val, y_price, y_sales, yv_price, yv_sales, pm, sm.
  destruct (train_frames_targets L _ _ _ _ Hframes) as (Hnum & Hcomp & Hlt & Hlv).
  destruct (prepare_features_names L _ _ _ _ _ Hpt) as (_ & _ & HXt).
  destruct (prepare_features_names L _ _ _ _ _ Hpv) as (_ & _ & HXv).
  destruct (prepare_features_keeps_series L _ _ _ _ _ "price_target" Hpt)
    as (_ & _ & Hnt & Hs1); [done..|].
  destruct (prepare_features_keeps_series L _ _ _ _ _ "sales_target" Hpt)
    as (_ & _ & _ & Hs2); [done..|].
  destruct (prepare_features_keeps_series L _ _ _ _ _ "price_target" Hpv)
    as (_ & _ & Hnv & Hs3); [done..|].
  destruct (prepare_features_keeps_series L _ _ _ _ _ "sales_target" Hpv)
    as (_ & _ & _ & Hs4); [done..|].
  rewrite Hs1 in Hy1. rewrite Hs2 in Hy2. rewrite Hs3 in Hy3. rewrite Hs4 in Hy4.
  destruct (series_number_col L _ _ _ Hy1) as [Hl1 Hn1]; [apply Hnum; by left|].
  destruct (series_number_col L _ _ _ Hy2) as [Hl2 Hn2]; [apply Hnum; by right; left|].
  destruct (series_complete_col L _ _ _ Hy3) as [Hl3 Hn3]; [apply Hcomp; by left|].
  destruct (series_complete_col L _ _ _ Hy4) as [Hl4 Hn4]; [apply Hcomp; by right; left|].
  rewrite Hself. cbn [price_model sales_model].
  repeat (split; [first [done | congruence | lia]|]). done.
Qed.

Lemma train_fits_aligned_data_witness :
  ∃ X_train y_price pm,
    price_model (self sample_trained.2) = Some pm ∧
    columns X_train = schema_feature_names ∧
    length y_price = nrows X_train ∧
    Forall (λ x, ∃ q, x = CNum q) y_price.
Proof.
  destruct sample_trained_returns as (metrics & st1 & Hrun).
  destruct (train_fits_aligned_data sample_lib _ _ _ _ _ Hrun)
    as (train_df & val_df & X_train & X_val & y_price & y_sales & yv_price & yv_sales
        & pm & sm & _ & _ & _ & _ & _ & _ & Hpm & _ & HX & _ & _ & _ & Hl & _ & _ & _ & Hn & _).
  exists X_train, y_price, pm. rewrite Hrun. cbn [snd].
  split; [exact Hpm|]. split; [exact HX|]. split; [exact Hl|exact Hn].
Defined.

(** X11: when [train] returns, the model directory holds the bundle of
    the two boosters now in memory and of the schema of the script (a
    load of the directory gives back the predictor as it is), written
    over the entries that were there, with nothing else changed in the
    file system.  The files are written after both models are trained:
    the calls are the two reads, the two trainings, then the three
    writes.  The metrics returned are those of the two boosters and their
    JSON text is the last line of stdout. *)
Theorem train_saves_what_it_trained (L : Lib) (tp vp : string) (st st' : Proc (Booster L))
    (metrics : Metrics) :
  train L tp vp st = (Ret metrics, st') →
  ∃ pm sm entries,
    self st' = mkPredictor (model_dir (self st)) (Some pm) (Some sm)
                 (Some schema_feature_names) (Some categorical_feature_names) ∧
    fs st !! model_dir (self st) = Some (Dir entries) ∧
    fs st' = <[model_dir (self st) := Dir (bundle_entries pm sm entries)]> (fs st) ∧
    stored_predictor (fs st') (model_dir (self st)) = Some (self st') ∧
    metrics = mkMetrics (best_iteration L pm) (best_score L pm)
                        (best_iteration L sm) (best_score L sm) ∧
    trace st' = trace st ++
      [EReadCsv tp; EReadCsv vp; ELgbTrain; ELgbTrain;
       EOpenWrite (model_dir (self st)) "price_model.pkl";
       EOpenWrite (model_dir (self st)) "sales_model.pkl";
       EOpenWrite (model_dir (self st)) "feature_info.json"] ∧
    last (out st') = Some (dumps_metrics L metrics).
Proof.
  intros (train_df & val_df & t & v & t' & v' & X_train & X_val & y_price & y_sales
          & yv_price & yv_sales & pm & sm & entries & _ & _ & _ & _ & _
          & _ & _ & _ & _ & _ & _ & _ & _ & Hdir & Hm & Hself & Hfs & Htr & Hout)%train_returns.
  exists pm, sm, entries. repeat (split; [done|]).
  split; [|done].
  rewrite Hfs, Hself. unfold stored_predictor, loaded_predictor, bundle_entries.
  rewrite lookup_insert_eq. by simplify_map_eq.
Qed.

Lemma train_saves_what_it_trained_witness :
  ∃ pm sm,
    stored_predictor (fs sample_trained.2) "models"
      = Some (mkPredictor "models" (Some pm) (Some sm)
                (Some schema_feature_names) (Some categorical_feature_names)).
Proof.
  destruct sample_trained_returns as (metrics & st1 & Hrun).
  destruct (train_saves_what_it_trained sample_lib _ _ _ _ _ Hrun)
    as (pm & sm & entries & Hself & _ & _ & Hstored & _).
  exists pm, sm. rewrite Hrun. cbn [snd].
  rewrite Hself in Hstored. exact Hstored.
Defined.

(** ** Runs of [train] that fail *)

(** X12: when both files are read and one of the frames is not valid,
    [train] raises [ValueError] before any row is filtered and any model
    trained: the predictor and the file system are untouched and the only
    calls made are the two reads.  Stdout gets four lines: the two
    loading messages, the line [validate_data] prints for the frame it
    rejects (the training frame is checked first, and the validation
    frame only when the training frame is valid), and the error message;
    stderr gets the three messages of [log_info]. *)
Theorem train_rejects_invalid_data (L : Lib) (tp vp : string) (st : Proc (Booster L))
    (train_df val_df : DataFrame) :
  read_csv L tp = LOk train_df →
  read_csv L vp = LOk val_df →
  ¬ (valid_frame train_df ∧ valid_frame val_df) →
  train L tp vp st =
    (Raise (Exc ValueError invalid_data_msg),
     mkProc (self st) (fs st)
       (out st ++ [info_line ("Загрузка обучающих данных из " +:+ tp);
                   info_line ("Загрузка валидационных данных из " +:+ vp);
                   rejection_line L (rejected_frame train_df val_df);
                   info_line ("ОШИБКА: " +:+ invalid_data_msg)])
       (err st ++ ["Загрузка обучающих данных из " +:+ tp;
                   "Загрузка валидационных данных из " +:+ vp;
                   "ОШИБКА: " +:+ invalid_data_msg])
       (trace st ++ [EReadCsv tp; EReadCsv vp])).
Proof.
  destruct st as [me files o e t]. intros Hr1 Hr2 Hbad.
  unfold rejected_frame, rejection_line, info_line.
  run_cbv_goal. rewrite Hr1, Hr2.
  destruct (decide (valid_frame train_df)) as [[Hc1 Hn1]|Hv1].
  - rewrite Hc1, Hn1.
    destruct (filter (λ col, col ∉ columns val_df) required_columns) as [|m ms] eqn:Hc2.
    + destruct (nrows val_df <? 10)%nat eqn:Hn2; [|by destruct Hbad].
      by rewrite <- !app_assoc.
    + by rewrite <- !app_assoc.
  - destruct (filter (λ col, col ∉ columns train_df) required_columns) as [|m ms] eqn:Hc1.
    + destruct (nrows train_df <? 10)%nat eqn:Hn1; [|by destruct Hv1].
      by rewrite <- !app_assoc.
    + by rewrite <- !app_assoc.
Qed.

Lemma train_rejects_invalid_data_witness :
  (train (csv_lib (λ _, LOk no_price_frame)) "a.csv" "b.csv" (boot ∅)).1
    = Raise (Exc ValueError invalid_data_msg) ∧
  out (train (csv_lib (λ _, LOk no_price_frame)) "a.csv" "b.csv" (boot ∅)).2 !! 2%nat
    = Some (rejection_line (csv_lib (λ _, LOk no_price_frame)) no_price_frame).
Proof.
  rewrite (train_rejects_invalid_data (csv_lib (λ _, LOk no_price_frame)) "a.csv" "b.csv"
             (boot ∅) no_price_frame no_price_frame).
  - split; reflexivity.
  - reflexivity.
  - reflexivity.
  - intros [[Hc _] _]. vm_compute in Hc. discriminate Hc.
Defined.

(** X13: when the training file cannot be read, [train] raises what the
    reader raised, after one line on each stream; the validation file is
    not opened and nothing else is done. *)
Theorem train_stops_at_unreadable_file (L : Lib) (tp vp : string) (st : Proc (Booster L))
    (k : exn_kind) (msg : string) :
  read_csv L tp = LErr k msg →
  train L tp vp st =
    (Raise (Exc k msg),
     mkProc (self st) (fs st)
       (out st ++ [info_line ("Загрузка обучающих данных из " +:+ tp)])
       (err st ++ ["Загрузка обучающих данных из " +:+ tp])
       (trace st ++ [EReadCsv tp])).
Proof.
  destruct st as [me files o e t]. intros Hr.
  unfold info_line. run_cbv_goal. by rewrite Hr.
Qed.

Lemma train_stops_at_unreadable_file_witness :
  trace (train sample_lib "missing.csv" "val.csv" (boot ∅)).2 = [EReadCsv "missing.csv"].
Proof.
  by rewrite (train_stops_at_unreadable_file sample_lib "missing.csv" "val.csv" (boot ∅)
                FileNotFoundError "No such file or directory").
Defined.



(** ** Frames that [validate_data] accepts and [train] cannot use *)

Lemma train_frames_ok (L : Lib) (train_df val_df : DataFrame) :
  Forall (numeric_col train_df) target_columns →
  valid_frame val_df →
  ∃ t v, train_frames L train_df val_df = Ret (t, v) ∧
         columns t = columns train_df ∧ columns v = columns val_df.
Proof.
  intros Hnum [Hcols _].
  destruct (remove_outliers_numeric L target_columns (1 # 100) (99 # 100))
    with (df := train_df) as (f & Hf & Hcf & _ & _); [done..|].
  unfold train_frames. pure_simpl. rewrite Hf.
  pose proof (proj1 (filter_absent_nil _ _) Hcols) as Hall.
  assert (Hin : ∀ c, c ∈ target_columns → c ∈ required_columns).
  { intros c Hc. unfold target_columns, required_columns in *.
    repeat (apply elem_of_cons in Hc as [->|Hc]; [set_solver|]). by apply elem_of_nil in Hc. }
  assert (Hpf : filter (λ c, c ∉ columns f) target_columns = []).
  { apply filter_absent_nil. intros c Hc. rewrite Hcf.
    apply (proj1 (Forall_forall _ _) Hnum) in Hc as (i & Hi & _).
    apply col_index_lookup in Hi. by eapply list_elem_of_lookup_2. }
  assert (Hpv : filter (λ c, c ∉ columns val_df) target_columns = []).
  { apply filter_absent_nil. intros c Hc. by apply Hall, Hin. }
  unfold dropna. rewrite Hpf, Hpv. eexists _, _. split; [reflexivity|]. by cbn [columns].
Qed.

(** X15: [validate_data] does not check the feature columns.  Two
    frames that it accepts, the training one with numeric targets but
    without the column [is_weekend], make [train] fail after validation
    with [KeyError: 'is_weekend'], raised by [_prepare_features]; nothing
    has been trained or written by then. *)
Theorem train_fails_on_missing_feature_column (L : Lib) (tp vp : string)
    (st : Proc (Booster L)) (train_df val_df : DataFrame) :
  read_csv L tp = LOk train_df →
  read_csv L vp = LOk val_df →
  valid_frame train_df → valid_frame val_df →
  Forall (numeric_col train_df) target_columns →
  "is_weekend" ∉ columns train_df →
  train L tp vp st =
    (Raise (Exc KeyError "'is_weekend'"),
     mkProc (self st) (fs st)
       (out st ++ [info_line ("Загрузка обучающих данных из " +:+ tp);
                   info_line ("Загрузка валидационных данных из " +:+ vp)])
       (err st ++ ["Загрузка обучающих данных из " +:+ tp;
                   "Загрузка валидационных данных из " +:+ vp])
       (trace st ++ [EReadCsv tp; EReadCsv vp])).
Proof.
  destruct st as [me files o e t]. intros Hr1 Hr2 Hv1 Hv2 Hnum Hw.
  destruct (train_frames_ok L train_df val_df Hnum Hv2) as (t0 & v0 & Hframes & Hct & _).
  assert (Hprep : _prepare_features L t0 = Raise (Exc KeyError "'is_weekend'")).
  { unfold _prepare_features, assign_astype_int. pure_simpl.
    rewrite series_absent by (by rewrite Hct). done. }
  destruct Hv1 as [Hc1 Hn1]. destruct Hv2 as [Hc2 Hn2].
  unfold info_line. run_cbv_goal.
  rewrite Hr1, Hr2, Hc1, Hn1, Hc2, Hn2, Hframes, Hprep.
  by rewrite <- !app_assoc.
Qed.

Lemma train_fails_on_missing_feature_column_witness :
  (train (csv_lib (λ _, LOk required_only_frame)) "a.csv" "b.csv" (boot ∅)).1
    = Raise (Exc KeyError "'is_weekend'").
Proof.
  rewrite (train_fails_on_missing_feature_column (csv_lib (λ _, LOk required_only_frame))
             "a.csv" "b.csv" (boot ∅) required_only_frame required_only_frame).
  - reflexivity.
  - reflexivity.
  - reflexivity.
  - split; vm_compute; reflexivity.
  - split; vm_compute; reflexivity.
  - repeat constructor.
    + exists 0%nat. split; [reflexivity|]. repeat constructor.
    + exists 1%nat. split; [reflexivity|]. repeat constructor.
  - apply (bool_decide_unpack _). vm_compute. exact I.
Defined.

(** ** [main]: the runs that end before any work is done *)



(** X17: when the path given as model directory is an existing file the
    constructor of the predictor fails: [main] ends by the
    [FileExistsError] of [os.makedirs], for [predict] as for [train],
    since the constructor runs outside the [try] statement.  Stdout holds
    the first [INFO:] line only, so no JSON line, and the exit status
    is 1. *)
Theorem main_model_dir_is_a_file (L : Lib) (args : Args)
    (files : gmap string (node (Booster L))) :
  files !! arg_model_dir args = Some File →
  main L args (boot files) =
    (Raise (Exc FileExistsError
              ("[Errno 17] File exists: " +:+ py_repr L (arg_model_dir args))),
     mkProc (mkPredictor (arg_model_dir args) None None None None) files
       [info_line (startup_msg args)] [startup_msg args]
       [EMakedirs (arg_model_dir args)]) ∧
  exit_code (main L args (boot files)).1 = 1%Z.
Proof.
  destruct args as [act td vd d]. cbn [arg_model_dir]. intros Hd.
  unfold startup_msg, info_line. cbn [action val_data arg_model_dir train_data].
  main_cbv_goal. by rewrite Hd.
Qed.

Lemma main_model_dir_is_a_file_witness :
  exit_code (main sample_lib (mkArgs Predict "{...}" None "models")
               (boot (<["models" := File]> ∅))).1 = 1%Z.
Proof.
  apply (main_model_dir_is_a_file sample_lib (mkArgs Predict "{...}" None "models")
           (<["models" := File]> ∅)).
  reflexivity.
Defined.

(** ** The calls a run makes *)



(** ** Exit status *)


(** ** A prediction after a training run *)

(** The [try] block of the [predict] branch around the call of
    [predict]. *)
Lemma main_predict_body_unfold (L : Lib) (args : Args) (st : Proc (Booster L))
    (record : list (string * cell)) :
  json_loads L (train_data args) = Some record →
  main_predict_body L args st =
    match predict L record
            (mkProc (self st) (fs st) (out st ++ [info_line predict_start_msg])
                    (err st ++ [predict_start_msg]) (trace st)) with
    | (Ret p, st2) =>
        (Ret (),
         mkProc (self st2) (fs st2)
           (out st2 ++ [info_line (prediction_msg L p); dumps_prediction L p])
           (err st2 ++ [prediction_msg L p]) (trace st2))
    | (Raise e, st2) => (Raise e, st2)
    end.
Proof.
  intros Hj. destruct st as [me files o e t]. destruct args as [act td vd d].
  cbn [train_data] in Hj.
  unfold main_predict_body, info_line, prediction_msg, predict_start_msg.
  cbv beta iota zeta delta
    [mbind M_bind mret M_ret py_json_loads log_info stderr_write print raise
     self fs out err trace train_data].
  rewrite Hj.
  destruct (predict L record _) as [[p|e0] [me2 files2 o2 e2 t2]]; [|done].
  cbn [self fs out err trace]. by rewrite <- app_assoc.
Qed.

Lemma main_train_returns (L : Lib) (args : Args) (files : gmap string (node (Booster L)))
    (st1 : Proc (Booster L)) :
  action args = Train →
  main L args (boot files) = (Ret (), st1) →
  ∃ pm sm entries,
    self st1 = mkPredictor (arg_model_dir args) (Some pm) (Some sm)
                 (Some schema_feature_names) (Some categorical_feature_names) ∧
    fs st1 !! arg_model_dir args = Some (Dir (bundle_entries pm sm entries)).
Proof.
  destruct args as [act td vd d]. cbn [action arg_model_dir]. intros -> Hrun.
  main_cbv_in Hrun.
  repeat run_step_main_in Hrun; try discriminate Hrun.
  all: injection Hrun as <-.
  all: match goal with
       | Ht : train _ _ _ _ = (Ret _, _) |- _ =>
           destruct (train_returns _ _ _ _ _ _ Ht)
             as (?&?&?&?&?&?&?&?&?&?&?&?&pm&sm&en&_&_&_&_&_&_&_&_&_&_&_&_&_&_&_&Hself&Hfs&_);
           cbn [fs self model_dir] in Hfs, Hself
       end.
  all: exists pm, sm, en; split; [done|]; by rewrite Hfs, lookup_insert_eq.
Qed.

(** X20: a [predict] invocation that follows a [train] invocation which
    returned, on the same model directory and in a new process, answers
    as the predictor that was trained would: for a record that is valid
    JSON it loads the bundle from the directory and ends, when the
    trained models and schema give a prediction for the record, with exit
    status 0 and the JSON text of that prediction as last line of stdout,
    and otherwise with exit status 1 and the JSON error object for the
    exception they raise.  The file system is left as training left
    it. *)
Theorem predict_after_train (L : Lib) (targs pargs : Args)
    (files : gmap string (node (Booster L))) (st1 : Proc (Booster L))
    (record : list (string * cell)) :
  action targs = Train → action pargs = Predict →
  arg_model_dir pargs = arg_model_dir targs →
  main L targs (boot files) = (Ret (), st1) →
  json_loads L (train_data pargs) = Some record →
  ∃ pm sm r st2,
    price_model (self st1) = Some pm ∧ sales_model (self st1) = Some sm ∧
    main L pargs (boot (fs st1)) = (r, st2) ∧
    fs st2 = fs st1 ∧
    match predict_with L (self st1) pm sm record with
    | Ret p =>
        r = Ret () ∧ exit_code r = 0%Z ∧
        last (out st2) = Some (dumps_prediction L p)
    | Raise e =>
        r = Raise (SystemExit 1) ∧ exit_code r = 1%Z ∧
        last (out st2) = Some (dumps_error L (reported_message e))
    end.
Proof.
  intros Ht Hp Hd Hmain Hj.
  destruct (main_train_returns L targs files st1 Ht Hmain) as (pm & sm & en & Hself & Hdir).
  exists pm, sm. rewrite Hself. cbn [price_model sales_model].
  rewrite <- Hd in Hdir, Hself |- *.
  assert (Hstored : stored_predictor (fs st1) (arg_model_dir pargs)
                    = Some (mkPredictor (arg_model_dir pargs) (Some pm) (Some sm)
                              (Some schema_feature_names) (Some categorical_feature_names))).
  { unfold stored_predictor, loaded_predictor, bundle_entries in *. rewrite Hdir.
    by simplify_map_eq. }
  rewrite (main_enters_predict L pargs (fs st1) Hp) by (by rewrite Hdir).
  assert (Hentry : fs (predict_entry pargs (fs st1)) = fs st1).
  { unfold predict_entry. cbn [fs]. by rewrite Hdir. }
  set (st0 := predict_entry pargs (fs st1)) in *.
  pose proof (main_predict_body_unfold L pargs st0 record Hj) as Hbody.
  destruct (predict L record _) as [rp st2] eqn:Hpred in Hbody.
  destruct (predict_run_unloaded L record _ _ _ Hpred) as (Hfs & _ & Hres);
    [by left|].
  cbn [fs self model_dir] in Hfs, Hres.
  change (model_dir (self st0)) with (arg_model_dir pargs) in Hres.
  rewrite Hentry in Hfs, Hres. rewrite Hstored in Hres.
  destruct Hres as (_ & _ & pm' & sm' & [= <-] & [= <-] & ->).
  destruct (predict_with L _ pm sm record) as [p|e].
  - eexists (Ret ()), _. split; [done|]. split; [done|].
    split; [unfold main_predict, try_except; rewrite Hbody; reflexivity|].
    cbn [fs out]. split; [done|]. split; [done|]. split; [done|].
    by rewrite (last_app_cons _ _ _), last_cons.
  - rewrite (main_predict_caught L _ _ _ _ Hbody).
    eexists _, _. split; [done|]. split; [done|]. split; [reflexivity|].
    cbn [fs out]. split; [done|]. split; [done|]. split; [done|].
    by rewrite (last_app_cons _ _ _), last_cons.
Qed.

Lemma predict_after_train_witness :
  ∃ st2,
    main sample_lib (mkArgs Predict "{...}" None "models")
      (boot (fs (main sample_lib (mkArgs Train "data.csv" (Some "val.csv") "models")
                   (boot ∅)).2))
      = (Ret (), st2).
Proof.
  destruct (main sample_lib (mkArgs Train "data.csv" (Some "val.csv") "models") (boot ∅))
    as [r st1] eqn:Hrun.
  assert (Hr : r = Ret ()).
  { change r with (r, st1).1. rewrite <- Hrun. vm_compute. reflexivity. }
  subst r.
  destruct (predict_after_train sample_lib
              (mkArgs Train "data.csv" (Some "val.csv") "models")
              (mkArgs Predict "{...}" None "models") ∅ st1 sample_record
              eq_refl eq_refl eq_refl Hrun eq_refl)
    as (pm & sm & r & st2 & Hpm & Hsm & Hmain & _ & Hres).
  assert (Hst1 : st1 = (main sample_lib (mkArgs Train "data.csv" (Some "val.csv") "models")
                          (boot ∅)).2) by (by rewrite Hrun).
  rewrite Hst1 in Hpm, Hsm, Hres.
  vm_compute in Hpm. injection Hpm as <-.
  vm_compute in Hsm. injection Hsm as <-.
  destruct (predict_with sample_lib _ _ _ sample_record) as [p|e] eqn:Hp in Hres.
  - destruct Hres as (-> & _). cbn [snd]. by exists st2.
  - vm_compute in Hp. discriminate Hp.
Defined.


(** ** How many rows the outlier filter keeps *)

Lemma insert_sorted_Permutation (x : Q) (l : list Q) : insert_sorted x l ≡ₚ x :: l.
Proof.
  induction l as [|y l IH]; simpl; [done|].
  destruct (Qle_bool x y); [done|]. rewrite IH. apply Permutation_swap.
Qed.

Lemma sort_Q_Permutation (l : list Q) : sort_Q l ≡ₚ l.
Proof.
  unfold sort_Q. induction l as [|x l IH]; simpl; [done|].
  rewrite insert_sorted_Permutation. by f_equiv.
Qed.

Lemma insert_sorted_StronglySorted (x : Q) (l : list Q) :
  StronglySorted Qle l → StronglySorted Qle (insert_sorted x l).
Proof.
  induction 1 as [|y l Hs IH Hall]; simpl; [repeat constructor|].
  destruct (Qle_bool x y) eqn:Hxy.
  - apply Qle_bool_iff in Hxy. constructor; [by constructor|].
    constructor; [done|]. eapply Forall_impl; [exact Hall|].
    intros z Hz. by eapply Qle_trans.
  - assert (Hyx : (y <= x)%Q).
    { destruct (Qlt_le_dec y x) as [Hlt|Hle]; [by apply Qlt_le_weak|].
      apply Qle_bool_iff in Hle. congruence. }
    constructor; [done|].
    rewrite insert_sorted_Permutation. by constructor.
Qed.

Lemma sort_Q_StronglySorted (l : list Q) : StronglySorted Qle (sort_Q l).
Proof.
  unfold sort_Q. induction l as [|x l IH]; simpl; [constructor|].
  by apply insert_sorted_StronglySorted.
Qed.

Lemma StronglySorted_Qle_lookup (l : list Q) (i j : nat) (x y : Q) :
  StronglySorted Qle l → (i ≤ j)%nat →
  l !! i = Some x → l !! j = Some y → (x <= y)%Q.
Proof.
  intros Hs. revert i j. induction Hs as [|z l Hs IH Hall]; intros i j Hij Hi Hj; [done|].
  destruct i as [|i], j as [|j]; simplify_eq/=; try lia.
  - apply Qle_refl.
  - apply (proj1 (Forall_forall _ _) Hall). by eapply list_elem_of_lookup_2.
  - eapply IH; [|done..]. lia.
Qed.

(** The value [interpolate] gives lies between the element at the floor
    of the position and the next one. *)
Lemma interpolate_between (sorted : list Q) (q : Q) :
  StronglySorted Qle sorted → sorted ≠ [] →
  (0 <= q)%Q → (q <= 1)%Q →
  ∃ v x,
    interpolate sorted q = CNum v ∧
    (Z.to_nat (Qfloor (q * inject_Z (Z.of_nat (length sorted - 1)))) < length sorted)%nat ∧
    sorted !! Z.to_nat (Qfloor (q * inject_Z (Z.of_nat (length sorted - 1)))) = Some x ∧
    (x <= v)%Q ∧
    ∀ y, sorted !! S (Z.to_nat (Qfloor (q * inject_Z (Z.of_nat (length sorted - 1)))))
           = Some y → (v <= y)%Q.
Proof.
  intros Hs Hne H0 H1. unfold interpolate.
  destruct sorted as [|x0 rest] eqn:Hsorted; [done|]. rewrite <- Hsorted in *.
  set (m := Z.of_nat (length sorted - 1)).
  set (pos := (q * inject_Z m)%Q).
  assert (Hm : (0 <= inject_Z m)%Q)
    by (change 0%Q with (inject_Z 0); rewrite <- Zle_Qle; lia).
  assert (Hpos0 : (0 <= pos)%Q) by (unfold pos; nra).
  assert (Hposm : (pos <= inject_Z m)%Q) by (unfold pos; nra).
  clearbody pos.
  assert (Hf0 : (0 <= Qfloor pos)%Z).
  { change 0%Z with (Qfloor 0). by apply Qfloor_resp_le. }
  assert (Hfm : (Qfloor pos <= m)%Z).
  { rewrite <- (Qfloor_Z m). by apply Qfloor_resp_le. }
  assert (Hlen : (0 < length sorted)%nat) by (rewrite Hsorted; simpl; lia).
  assert (Hlo : (Z.to_nat (Qfloor pos) < length sorted)%nat) by (unfold m in Hfm; lia).
  destruct (lookup_lt_is_Some_2 sorted _ Hlo) as [x Hx].
  pose proof (Qfloor_le pos) as Hfl. pose proof (Qlt_floor pos) as Hfu.
  rewrite inject_Z_plus in Hfu.
  eexists _, x. split; [reflexivity|]. split; [done|]. split; [done|].
  rewrite Hx. cbn [default from_option id].
  change (inject_Z 1) with 1%Q in Hfu.
  destruct (sorted !! S (Z.to_nat (Qfloor pos))) as [y|] eqn:Hy; cbn [default from_option id].
  - assert (Hxy : (x <= y)%Q).
    { eapply (StronglySorted_Qle_lookup sorted); [done| |done..]. lia. }
    split; [rewrite Qred_correct; nra|]. intros y' [= <-].
    rewrite Qred_correct. nra.
  - split; [rewrite Qred_correct; nra|]. done.
Qed.

Lemma filter_length_slice {A} (P : A → Prop) `{∀ x, Decision (P x)} (l : list A)
    (a b : nat) :
  (b < length l)%nat →
  (∀ j x, (a < j ≤ b)%nat → l !! j = Some x → P x) →
  (b - a ≤ length (filter P l))%nat.
Proof.
  intros Hb Hall.
  rewrite <- (take_drop (S a) l), filter_app, length_app.
  rewrite <- (take_drop (b - a) (drop (S a) l)), filter_app, length_app.
  assert (Hmid : Forall P (take (b - a) (drop (S a) l))).
  { apply Forall_lookup. intros k x Hk.
    apply lookup_take_Some in Hk as [Hk Hlt]. rewrite lookup_drop in Hk.
    apply (Hall (S a + k)%nat); [lia|done]. }
  rewrite (filter_Forall_id P _ Hmid), length_take, length_drop. lia.
Qed.

(** The rows the mask of the filter keeps are as many as the numeric
    values of the column within the bounds. *)
Lemma mask_rows_count (i : nat) (rs : list (list cell)) (vs : list Q) (lo hi : Q) :
  numeric_values (cell_at i <$> rs) = Some vs →
  length (mask_rows ((λ row, cell_ge (cell_at i row) (CNum lo)
                             && cell_le (cell_at i row) (CNum hi)) <$> rs) rs)
  = length (filter (within lo hi) vs).
Proof.
  revert vs. induction rs as [|r rs IH]; intros vs Hvs.
  { by injection Hvs as <-. }
  rewrite fmap_cons in Hvs. rewrite fmap_cons.
  cbn [numeric_values] in Hvs. cbn [mask_rows].
  destruct (cell_at i r) as [q| | |] eqn:Hc; cbn [cell_ge cell_le andb]; try done.
  - destruct (numeric_values (cell_at i <$> rs)) as [vs'|] eqn:Hvs'; [|done].
    injection Hvs as <-. rewrite filter_cons.
    destruct (decide (within lo hi q)) as [Hw|Hw]; unfold within in Hw.
    + rewrite Hw. cbn [length]. f_equal. by apply IH.
    + apply not_true_is_false in Hw. rewrite Hw. by apply IH.
  - by apply IH.
Qed.

Lemma within_iff (lo hi v : Q) : within lo hi v ↔ (lo <= v)%Q ∧ (v <= hi)%Q.
Proof.
  unfold within. rewrite andb_true_iff, !Qle_bool_iff. done.
Qed.

Lemma quantile_index_single (q : Q) (n : nat) : (n ≤ 1)%nat → quantile_index q n = 0%nat.
Proof.
  intros Hn. unfold quantile_index. replace (n - 1)%nat with 0%nat by lia.
  assert (Hz : (q * inject_Z (Z.of_nat 0) == 0)%Q) by apply Qmult_0_r.
  by rewrite Hz.
Qed.

(** One turn of the outlier filter on a numeric column keeps at least
    as many rows as there are positions between the two quantiles. *)
Lemma remove_outliers_step_keeps (L : Lib) (df : DataFrame) (col : string) (lq uq : Q)
    (i : nat) (vs : list Q) :
  col_index (columns df) col = Some i →
  numeric_values (cell_at i <$> rows df) = Some vs →
  (0 <= lq)%Q → (lq <= uq)%Q → (uq <= 1)%Q →
  ∃ df', remove_outliers_step L lq uq df col = Ret df' ∧
         columns df' = columns df ∧
         rows df' `sublist_of` rows df ∧
         (quantile_index uq (length vs) - quantile_index lq (length vs) ≤ nrows df')%nat.
Proof.
  intros Hi Hvs H0 Hle H1.
  rewrite remove_outliers_step_bounds.
  unfold column_bounds, keep_within, series, quantile. pure_simpl. rewrite Hi, Hvs.
  assert (Hlq : Qle_bool 0 lq && Qle_bool lq 1 = true).
  { apply andb_true_iff. rewrite !Qle_bool_iff. split; [done|]. by eapply Qle_trans. }
  assert (Huq : Qle_bool 0 uq && Qle_bool uq 1 = true).
  { apply andb_true_iff. rewrite !Qle_bool_iff. split; [by eapply Qle_trans|done]. }
  rewrite Hlq, Huq. cbn [negb].
  destruct (decide (vs = [])) as [->|Hne].
  { eexists. split; [reflexivity|]. cbn [columns rows filter_mask].
    split; [done|]. split; [apply mask_rows_sublist|].
    rewrite !quantile_index_single by (simpl; lia). lia. }
  pose proof (sort_Q_StronglySorted vs) as Hs.
  pose proof (sort_Q_Permutation vs) as Hperm.
  assert (Hsne : sort_Q vs ≠ []).
  { intros Hnil. rewrite Hnil in Hperm. by apply Permutation_nil_l in Hperm. }
  assert (Hlen : length (sort_Q vs) = length vs) by (by rewrite Hperm).
  destruct (interpolate_between (sort_Q vs) lq Hs Hsne H0) as (lo & xl & -> & _ & _ & _ & Hlo);
    [by eapply Qle_trans|].
  destruct (interpolate_between (sort_Q vs) uq Hs Hsne) as (hi & xh & -> & Hb & Hxh & Hhi & _);
    [by eapply Qle_trans|done|].
  rewrite Hlen in *. fold (quantile_index lq (length vs)) in Hlo.
  fold (quantile_index uq (length vs)) in Hb, Hxh.
  eexists. split; [reflexivity|]. cbn [columns rows filter_mask].
  split; [done|]. split; [apply mask_rows_sublist|].
  unfold nrows, filter_mask. cbn [rows].
  rewrite <- !list_fmap_compose.
  change ((λ x, cell_ge x (CNum lo) && cell_le x (CNum hi)) ∘ cell_at i)
    with (λ row, cell_ge (cell_at i row) (CNum lo) && cell_le (cell_at i row) (CNum hi)).
  rewrite (mask_rows_count i (rows df) vs lo hi Hvs).
  assert (Hcount : length (filter (within lo hi) vs)
                   = length (filter (within lo hi) (sort_Q vs))) by (by rewrite Hperm).
  rewrite Hcount.
  apply filter_length_slice; [by rewrite Hlen|].
  intros j x [Hj1 Hj2] Hx. apply within_iff. split.
  - destruct (lookup_lt_is_Some_2 (sort_Q vs) (S (quantile_index lq (length vs))))
      as [y Hy]; [apply lookup_lt_Some in Hx; lia|].
    eapply Qle_trans; [by apply Hlo|].
    eapply (StronglySorted_Qle_lookup (sort_Q vs)); [done| |done..]. lia.
  - eapply Qle_trans; [|exact Hhi].
    by eapply (StronglySorted_Qle_lookup (sort_Q vs)).
Qed.

(** An integer that fits between the positions of the two quantiles. *)
Lemma quantile_index_gap (lq uq : Q) (n k : nat) :
  (0 <= lq)%Q → (lq <= uq)%Q →
  (inject_Z (Z.of_nat k) <= (uq - lq) * inject_Z (Z.of_nat (n - 1)))%Q →
  (k ≤ quantile_index uq n - quantile_index lq n)%nat.
Proof.
  intros H0 Hle Hk. unfold quantile_index.
  set (m := inject_Z (Z.of_nat (n - 1))) in *.
  assert (Hm : (0 <= m)%Q)
    by (unfold m; change 0%Q with (inject_Z 0); rewrite <- Zle_Qle; lia).
  clearbody m.
  pose proof (Qfloor_le (lq * m)) as Ha.
  pose proof (Qlt_floor (uq * m)) as Hb.
  rewrite inject_Z_plus in Hb. change (inject_Z 1) with 1%Q in Hb.
  assert (Ha0 : (0 <= Qfloor (lq * m))%Z).
  { change 0%Z with (Qfloor 0). apply Qfloor_resp_le. nra. }
  assert (Hz : (Qfloor (lq * m) + Z.of_nat k < Qfloor (uq * m) + 1)%Z).
  { rewrite Zlt_Qlt, !inject_Z_plus. change (inject_Z 1) with 1%Q. nra. }
  lia.
Qed.

Lemma numeric_values_numbers (i : nat) (rs : list (list cell)) :
  Forall (λ row, ∃ q, cell_at i row = CNum q) rs →
  ∃ vs, numeric_values (cell_at i <$> rs) = Some vs ∧ length vs = length rs.
Proof.
  induction 1 as [|row rs (q & Hq) _ (vs & IH & Hlen)]; [by exists []|].
  exists (q :: vs). rewrite fmap_cons, Hq. cbn [numeric_values]. rewrite IH.
  split; [done|]. simpl. by rewrite Hlen.
Qed.

(** One turn of the filter with the quantiles of the script, on a column
    of numbers. *)
Lemma remove_outliers_step_default (L : Lib) (df : DataFrame) (col : string) (k : nat) :
  number_col df col →
  (inject_Z (Z.of_nat k) <= (98 # 100) * inject_Z (Z.of_nat (nrows df - 1)))%Q →
  ∃ df', remove_outliers_step L (1 # 100) (99 # 100) df col = Ret df' ∧
         columns df' = columns df ∧
         rows df' `sublist_of` rows df ∧
         (k ≤ nrows df')%nat.
Proof.
  intros (i & Hi & Hall) Hk.
  destruct (numeric_values_numbers i (rows df) Hall) as (vs & Hvs & Hlen).
  destruct (remove_outliers_step_keeps L df col (1 # 100) (99 # 100) i vs Hi Hvs)
    as (df' & Hstep & Hc & Hsub & Hkeep); [done..|].
  exists df'. split; [done|]. split; [done|]. split; [done|].
  etrans; [|exact Hkeep]. rewrite Hlen. apply quantile_index_gap; [done..|].
  fold (nrows df). eapply Qle_trans; [exact Hk|].
  assert (Hm : (0 <= inject_Z (Z.of_nat (nrows df - 1)))%Q)
    by (change 0%Q with (inject_Z 0); rewrite <- Zle_Qle; lia).
  nra.
Qed.

(** X21: on a column of numbers, [remove_outliers] with the quantiles
    of the script (0.01 and 0.99) keeps at least 98 % of the rows but
    one: every whole number [k] with [k <= 0.98 * (n - 1)], [n] the number
    of rows, is a lower bound of the number of rows kept.  So a column of
    three numbers or more is never emptied. *)
Theorem remove_outliers_keeps_middle (L : Lib) (df : DataFrame) (c : string) (k : nat) :
  number_col df c →
  (inject_Z (Z.of_nat k) <= (98 # 100) * inject_Z (Z.of_nat (nrows df - 1)))%Q →
  ∃ df', remove_outliers L df [c] (1 # 100) (99 # 100) = Ret df' ∧
         (k ≤ nrows df')%nat ∧ (nrows df' ≤ nrows df)%nat.
Proof.
  intros Hnum Hk.
  destruct (remove_outliers_step_default L df c k Hnum Hk) as (df' & Hstep & _ & Hsub & Hkeep).
  exists df'. cbn [remove_outliers]. pure_simpl. rewrite Hstep.
  split; [done|]. split; [done|]. by apply sublist_length.
Qed.

Lemma remove_outliers_keeps_middle_witness :
  ∃ df', remove_outliers sample_lib outlier_frame ["price_target"] (1 # 100) (99 # 100)
           = Ret df' ∧
         (3 ≤ nrows df')%nat ∧ (nrows df' ≤ nrows outlier_frame)%nat.
Proof.
  apply (remove_outliers_keeps_middle sample_lib outlier_frame "price_target" 3).
  - exists 0%nat. split; [reflexivity|]. repeat constructor; by eexists.
  - unfold Qle. simpl. lia.
Defined.

(** X22: when both targets of the training frame are columns of numbers
    and the validation frame is valid, [train_frames] returns, and the
    two turns of the outlier filter leave at least [k2] training rows for
    all whole numbers [k1 <= 0.98 * (n - 1)] and [k2 <= 0.98 * (k1 - 1)],
    [n] the number of rows read: at least 6 rows of 10, the fewest
    [validate_data] accepts, so such a training set is never emptied. *)
Theorem train_frames_keeps_rows (L : Lib) (train_df val_df : DataFrame) :
  (∀ c, c ∈ target_columns → number_col train_df c) →
  valid_frame val_df →
  ∃ t v,
    train_frames L train_df val_df = Ret (t, v) ∧
    (nrows t ≤ nrows train_df)%nat ∧
    (∀ k1 k2 : nat,
       (inject_Z (Z.of_nat k1) <= (98 # 100) * inject_Z (Z.of_nat (nrows train_df - 1)))%Q →
       (inject_Z (Z.of_nat k2) <= (98 # 100) * inject_Z (Z.of_nat (k1 - 1)))%Q →
       (k2 ≤ nrows t)%nat) ∧
    ((10 ≤ nrows train_df)%nat → (6 ≤ nrows t)%nat).
Proof.
  intros Hnum [Hcols _].
  assert (Hgen : ∃ t v,
    train_frames L train_df val_df = Ret (t, v) ∧
    (nrows t ≤ nrows train_df)%nat ∧
    (∀ k1 k2 : nat,
       (inject_Z (Z.of_nat k1) <= (98 # 100) * inject_Z (Z.of_nat (nrows train_df - 1)))%Q →
       (inject_Z (Z.of_nat k2) <= (98 # 100) * inject_Z (Z.of_nat (k1 - 1)))%Q →
       (k2 ≤ nrows t)%nat)).
  { destruct (remove_outliers_step_default L train_df "price_target" 0)
      as (df1 & Hs1 & Hc1 & Hsub1 & _).
    { apply Hnum. by left. }
    { assert (0 <= inject_Z (Z.of_nat (nrows train_df - 1)))%Q
        by (change 0%Q with (inject_Z 0); rewrite <- Zle_Qle; lia).
      change (inject_Z (Z.of_nat 0)) with 0%Q. nra. }
    assert (Hnum1 : ∀ c, c ∈ target_columns → number_col df1 c)
      by (intros c Hc; eapply number_col_sublist; eauto).
    destruct (remove_outliers_step_default L df1 "sales_target" 0)
      as (df2 & Hs2 & Hc2 & Hsub2 & _).
    { apply Hnum1. by right; left. }
    { assert (0 <= inject_Z (Z.of_nat (nrows df1 - 1)))%Q
        by (change 0%Q with (inject_Z 0); rewrite <- Zle_Qle; lia).
      change (inject_Z (Z.of_nat 0)) with 0%Q. nra. }
    assert (Hnum2 : ∀ c, c ∈ target_columns → number_col df2 c)
      by (intros c Hc; eapply number_col_sublist; eauto).
    pose proof (proj1 (filter_absent_nil _ _) Hcols) as Hall.
    assert (Hpv : filter (λ c, c ∉ columns val_df) target_columns = []).
    { apply filter_absent_nil. intros c Hc. apply Hall.
      unfold target_columns, required_columns in *.
      repeat (apply elem_of_cons in Hc as [->|Hc]; [set_solver|]).
      by apply elem_of_nil in Hc. }
    eexists df2, _. split.
    { unfold train_frames. pure_simpl. unfold target_columns at 1.
      cbn [remove_outliers]. pure_simpl. rewrite Hs1, Hs2.
      rewrite (dropna_number_cols L df2 target_columns Hnum2).
      unfold dropna. rewrite Hpv. reflexivity. }
    split.
    { unfold nrows. etrans; by apply sublist_length. }
    intros k1 k2 Hk1 Hk2.
    destruct (remove_outliers_step_default L train_df "price_target" k1)
      as (df1' & Hs1' & _ & _ & Hkeep1); [apply Hnum; by left|done|].
    rewrite Hs1 in Hs1'. injection Hs1' as <-.
    destruct (remove_outliers_step_default L df1 "sales_target" k2)
      as (df2' & Hs2' & _ & _ & Hkeep2); [apply Hnum1; by right; left| |].
    { eapply Qle_trans; [exact Hk2|].
      assert (inject_Z (Z.of_nat (k1 - 1)) <= inject_Z (Z.of_nat (nrows df1 - 1)))%Q
        by (rewrite <- Zle_Qle; lia).
      nra. }
    rewrite Hs2 in Hs2'. by injection Hs2' as <-. }
  destruct Hgen as (t & v & Hrun & Hle & Hk).
  exists t, v. split; [done|]. split; [done|]. split; [done|].
  intros Hn. apply (Hk 8%nat 6%nat).
  - assert (inject_Z 9 <= inject_Z (Z.of_nat (nrows train_df - 1)))%Q
      by (rewrite <- Zle_Qle; lia).
    change (inject_Z (Z.of_nat 8)) with 8%Q. change (inject_Z 9) with 9%Q in *. nra.
  - unfold Qle. simpl. lia.
Qed.

Lemma train_frames_keeps_rows_witness :
  ∃ t v,
    train_frames sample_lib sample_frame sample_val_frame = Ret (t, v) ∧
    (6 ≤ nrows t)%nat.
Proof.
  destruct (train_frames_keeps_rows sample_lib sample_frame sample_val_frame)
    as (t & v & Hrun & _ & _ & Hn).
  - intros c Hc. unfold target_columns in Hc.
    apply elem_of_cons in Hc as [->|Hc];
      [|apply elem_of_cons in Hc as [->|Hc]; [|by apply elem_of_nil in Hc]].
    + exists 26%nat. split; [reflexivity|]. repeat constructor; by eexists.
    + exists 27%nat. split; [reflexivity|]. repeat constructor; by eexists.
  - split; vm_compute; reflexivity.
  - exists t, v. split; [exact Hrun|]. apply Hn. vm_compute. lia.
Defined.

(** ** What [predict] reads of a record *)

Lemma series_has_col (L : Lib) (df : DataFrame) (k : string) :
  has_col df k = true ↔ ∃ s, series L df k = Ret s.
Proof.
  unfold has_col. rewrite bool_decide_eq_true. split.
  - intros Hk. destruct (series_present L df k Hk) as (i & _ & Hs). by eexists.
  - intros [s Hs]. destruct (decide (k ∈ columns df)) as [|Hn]; [done|].
    by rewrite (series_absent L df k Hn) in Hs.
Qed.

Lemma agree_on_has_col (L : Lib) (keys : list string) (d1 d2 : DataFrame) (k : string) :
  agree_on L keys d1 d2 → k ∈ keys → has_col d1 k = has_col d2 k.
Proof.
  intros (_ & Hser & _) Hk.
  destruct (has_col d1 k) eqn:H1, (has_col d2 k) eqn:H2; try done.
  - apply (series_has_col L) in H1 as [s Hs]. rewrite (Hser k Hk) in Hs.
    assert (has_col d2 k = true) by (apply (series_has_col L); by eexists). congruence.
  - apply (series_has_col L) in H2 as [s Hs]. rewrite <- (Hser k Hk) in Hs.
    assert (has_col d1 k = true) by (apply (series_has_col L); by eexists). congruence.
Qed.

Lemma assign_astype_int_category (L : Lib) (df df' : DataFrame) (c : string) :
  assign_astype_int L df c = Ret df' →
  category_cols df' = filter (λ c', c' ≠ c) (category_cols df).
Proof.
  unfold assign_astype_int, series, set_column. pure_simpl.
  destruct (col_index (columns df) c); [|done].
  destruct (astype_int L _); [|done]. by intros [= <-].
Qed.

Lemma assign_astype_int_series (L : Lib) (df df' : DataFrame) (c k : string) :
  assign_astype_int L df c = Ret df' →
  series L df' k =
    if decide (k = c) then (s ← series L df c; astype_int L s) else series L df k.
Proof.
  intros Hrun.
  destruct (assign_astype_int_Ret L _ _ _ Hrun) as (i & s' & Hi & Hs & Hc & Hn & Hv & Ho).
  destruct (decide (k = c)) as [->|Hne].
  - unfold series. rewrite Hc, Hi. pure_simpl. by rewrite Hs, Hv.
  - apply series_as_cells; [done|]. intros j Hj. apply Ho.
    intros ->. by pose proof (col_index_inj _ _ _ _ Hj Hi).
Qed.

Lemma filter_filter_comm {A} (P Q : A → Prop) `{!∀ x, Decision (P x), !∀ x, Decision (Q x)}
    (l : list A) :
  filter P (filter Q l) = filter Q (filter P l).
Proof. rewrite !list_filter_filter. apply list_filter_iff. tauto. Qed.

(** The conversion of a flag, when the record has it. *)
Lemma flag_step_agree (L : Lib) (keys : list string) (d1 d2 : DataFrame) (c : string) :
  agree_on L keys d1 d2 → c ∈ keys →
  agree_outcome L keys
    (if has_col d1 c then assign_astype_int L d1 c else Ret d1)
    (if has_col d2 c then assign_astype_int L d2 c else Ret d2).
Proof.
  intros Hag Hc. rewrite <- (agree_on_has_col L keys d1 d2 c Hag Hc).
  destruct (has_col d1 c) eqn:Hhas; [|exact Hag].
  destruct Hag as (Hn & Hser & Hcat).
  destruct (assign_astype_int L d1 c) as [d1'|e1] eqn:H1,
           (assign_astype_int L d2 c) as [d2'|e2] eqn:H2; cbn [agree_outcome].
  1: { split; [|split].
    - destruct (assign_astype_int_Ret L _ _ _ H1) as (_ & _ & _ & _ & _ & Hn1 & _).
      destruct (assign_astype_int_Ret L _ _ _ H2) as (_ & _ & _ & _ & _ & Hn2 & _).
      congruence.
    - intros k Hk.
      rewrite (assign_astype_int_series L _ _ _ k H1), (assign_astype_int_series L _ _ _ k H2).
      destruct (decide (k = c)) as [->|]; [by rewrite (Hser c Hc)|by apply Hser].
    - rewrite (assign_astype_int_category L _ _ _ H1), (assign_astype_int_category L _ _ _ H2).
      by rewrite !(filter_filter_comm (λ x, x ∈ keys)), Hcat. }
  all: unfold assign_astype_int in H1, H2; revert H1 H2; pure_simpl;
    rewrite (Hser c Hc); destruct (series L d2 c) as [s|]; [|congruence];
    destruct (astype_int L s); congruence.
Qed.

Lemma filter_cons_other (keys : list string) (c : string) (l : list string) :
  filter (λ x, x ∈ keys) (c :: filter (λ x, x ≠ c) l) =
  if decide (c ∈ keys)
  then c :: filter (λ x, x ≠ c) (filter (λ x, x ∈ keys) l)
  else filter (λ x, x ∈ keys) l.
Proof.
  rewrite filter_cons. destruct (decide (c ∈ keys)) as [Hc|Hc].
  - by rewrite (filter_filter_comm (λ x, x ∈ keys)).
  - rewrite list_filter_filter. apply list_filter_iff. intros x. split; [tauto|].
    intros Hx. split; [done|]. by intros ->.
Qed.

Lemma cast_step_agree (L : Lib) (keys : list string) (d1 d2 : DataFrame) (c : string) :
  agree_on L keys d1 d2 →
  ∃ d1' d2',
    (if has_col d1 c then assign_astype_category L d1 c else Ret d1) = Ret d1' ∧
    (if has_col d2 c then assign_astype_category L d2 c else Ret d2) = Ret d2' ∧
    agree_on L keys d1' d2'.
Proof.
  intros Hag.
  assert (Hcast : ∀ d, has_col d c = true →
            assign_astype_category L d c
            = Ret (mkDF (columns d) (c :: filter (λ c', c' ≠ c) (category_cols d)) (rows d))).
  { intros d [s Hs]%(series_has_col L). unfold assign_astype_category. pure_simpl.
    by rewrite Hs. }
  assert (Hkeep : ∀ d d' cat, agree_on L keys d d' →
            filter (λ x, x ∈ keys) cat = filter (λ x, x ∈ keys) (category_cols d) →
            agree_on L keys (mkDF (columns d) cat (rows d)) d').
  { intros d d' cat (Hn & Hser & Hcat) Hc. split; [done|]. split; [|by rewrite <- Hcat].
    intros k Hk. by rewrite <- (Hser k Hk). }
  assert (Hsym : ∀ d d', agree_on L keys d d' → agree_on L keys d' d).
  { intros d d' (Hn & Hser & Hcat). split; [done|]. split; [|done].
    intros k Hk. by rewrite Hser. }
  destruct (decide (c ∈ keys)) as [Hc|Hc].
  - rewrite <- (agree_on_has_col L keys d1 d2 c Hag Hc).
    destruct (has_col d1 c) eqn:Hhas; [|by exists d1, d2].
    assert (Hhas2 : has_col d2 c = true)
      by (by rewrite <- (agree_on_has_col L keys d1 d2 c Hag Hc)).
    rewrite (Hcast d1 Hhas), (Hcast d2 Hhas2). eexists _, _. split; [done|]. split; [done|].
    destruct Hag as (Hn & Hser & Hcat). split; [done|]. split; [done|].
    cbn [category_cols]. rewrite !filter_cons_other, !decide_True by done. by rewrite Hcat.
  - destruct (has_col d1 c) eqn:H1, (has_col d2 c) eqn:H2;
      rewrite ?(Hcast d1 H1), ?(Hcast d2 H2); eexists _, _;
      (split; [done|]); (split; [done|]).
    + apply Hkeep; [apply Hsym, Hkeep; [by apply Hsym|]|];
        cbn [category_cols]; by rewrite filter_cons_other, decide_False.
    + apply Hkeep; [done|]. by rewrite filter_cons_other, decide_False.
    + apply Hsym, Hkeep; [by apply Hsym|]. by rewrite filter_cons_other, decide_False.
    + done.
Qed.

Lemma cast_categories_agree (L : Lib) (keys cats : list string) :
  ∀ d1 d2, agree_on L keys d1 d2 →
    ∃ d1' d2', cast_categories L d1 cats = Ret d1' ∧
               cast_categories L d2 cats = Ret d2' ∧
               agree_on L keys d1' d2'.
Proof.
  induction cats as [|c cats IH]; intros d1 d2 Hag; [by exists d1, d2|].
  cbn [cast_categories]. pure_simpl.
  destruct (cast_step_agree L keys d1 d2 c Hag) as (d1' & d2' & -> & -> & Hag').
  by apply IH.
Qed.

Lemma take_cells_rows_cons (i : nat) (idx : list nat) (rs : list (list cell)) :
  take_cells (i :: idx) <$> rs = zip_with cons (cell_at i <$> rs) (take_cells idx <$> rs).
Proof. induction rs as [|r rs IH]; [done|]. rewrite !fmap_cons. simpl. by rewrite <- IH. Qed.

Lemma fmap_const_length {A B} (b : B) (l1 l2 : list A) :
  length l1 = length l2 → (λ _, b) <$> l1 = (λ _, b) <$> l2.
Proof.
  revert l2. induction l1 as [|x l1 IH]; intros [|y l2] Hlen; simplify_eq/=; [done|].
  f_equal. by apply IH.
Qed.

(** The rows of [df[names]] are the same for frames that agree on
    [names]. *)
Lemma selected_rows_agree (L : Lib) (d1 d2 : DataFrame) (names : list string) :
  nrows d1 = nrows d2 →
  (∀ k, k ∈ names → k ∈ columns d1) →
  (∀ k, k ∈ names → series L d1 k = series L d2 k) →
  take_cells (omap (col_index (columns d1)) names) <$> rows d1
  = take_cells (omap (col_index (columns d2)) names) <$> rows d2.
Proof.
  intros Hn. induction names as [|k names IH]; intros Hin Hser.
  { cbn [omap list_omap]. unfold take_cells. cbn [fmap list_fmap].
    by apply (fmap_const_length []). }
  assert (Hk : k ∈ k :: names) by (by left).
  pose proof (Hser k Hk) as Hsk.
  destruct (series_present L d1 k (Hin k Hk)) as (i1 & Hi1 & Hs1).
  rewrite Hs1 in Hsk. symmetry in Hsk. unfold series in Hsk.
  destruct (col_index (columns d2) k) as [i2|] eqn:Hi2; [|done]. injection Hsk as Hsk.
  cbn [omap list_omap]. rewrite Hi1, Hi2. cbn [mbind option_bind].
  rewrite !take_cells_rows_cons, IH, Hsk; [done| |].
  - intros k' Hk'. apply Hin. by right.
  - intros k' Hk'. apply Hser. by right.
Qed.

Lemma filter_ext_in {A} (P Q : A → Prop) `{!∀ x, Decision (P x), !∀ x, Decision (Q x)}
    (l : list A) :
  (∀ x, x ∈ l → P x ↔ Q x) → filter P l = filter Q l.
Proof.
  induction l as [|x l IH]; intros Hext; [done|].
  rewrite !filter_cons.
  destruct (decide (P x)) as [HP|HP], (decide (Q x)) as [HQ|HQ].
  - f_equal. apply IH. intros y Hy. apply Hext. by right.
  - destruct HQ. apply Hext; [by left|done].
  - destruct HP. apply Hext; [by left|done].
  - apply IH. intros y Hy. apply Hext. by right.
Qed.

Lemma select_columns_agree (L : Lib) (names : list string) (d1 d2 : DataFrame) :
  agree_on L names d1 d2 →
  select_columns L d1 names = select_columns L d2 names.
Proof.
  intros Hag. pose proof Hag as (Hn & Hser & Hcat).
  assert (Hin : ∀ k, k ∈ names → k ∈ columns d1 ↔ k ∈ columns d2).
  { intros k Hk. pose proof (agree_on_has_col L names d1 d2 k Hag Hk) as Hhas.
    unfold has_col in Hhas.
    split; intros Hc; apply (bool_decide_eq_true _);
      [rewrite <- Hhas|rewrite Hhas]; by apply bool_decide_eq_true. }
  unfold select_columns.
  assert (Hmiss : filter (λ c, c ∉ columns d1) names = filter (λ c, c ∉ columns d2) names).
  { apply filter_ext_in. intros k Hk. by rewrite (Hin k Hk). }
  rewrite <- Hmiss.
  destruct (filter (λ c, c ∉ columns d1) names) as [|m ms] eqn:Hm; [|done].
  pose proof (proj1 (filter_absent_nil _ _) Hm) as Hall.
  by rewrite Hcat, (selected_rows_agree L d1 d2 names Hn Hall Hser).
Qed.

Lemma agree_on_subset (L : Lib) (keys keys' : list string) (d1 d2 : DataFrame) :
  (∀ k, k ∈ keys' → k ∈ keys) →
  agree_on L keys d1 d2 → agree_on L keys' d1 d2.
Proof.
  intros Hsub (Hn & Hser & Hcat). split; [done|]. split; [by auto|].
  assert (Hf : ∀ l : list string, filter (λ c, c ∈ keys') l
                    = filter (λ c, c ∈ keys') (filter (λ c, c ∈ keys) l)).
  { intros l. rewrite list_filter_filter. apply list_filter_iff. intros x. split; [|tauto].
    intros Hx. split; [done|by apply Hsub]. }
  by rewrite (Hf (category_cols d1)), (Hf (category_cols d2)), Hcat.
Qed.

Lemma series_frame_of_record (L : Lib) (record : list (string * cell)) (k : string) :
  series L (frame_of_record record) k =
  match record_get record k with
  | Some v => Ret [v]
  | None => Raise (Exc KeyError (py_repr L k))
  end.
Proof.
  unfold series, record_get, frame_of_record. cbn [columns rows].
  destruct (col_index (record.*1) k) as [i|] eqn:Hi; cbn [mbind option_bind]; [|done].
  apply col_index_lookup, lookup_lt_Some in Hi. rewrite length_fmap in Hi.
  destruct (lookup_lt_is_Some_2 (record.*2) i) as [v Hv]; [by rewrite length_fmap|].
  rewrite Hv. cbn [fmap list_fmap]. unfold cell_at. by rewrite Hv.
Qed.

Lemma predict_features_agree (L : Lib) (me : Predictor (Booster L))
    (names : list string) (r1 r2 : list (string * cell)) :
  feature_names me = Some names →
  (∀ k, k ∈ "is_weekend" :: "is_holiday" :: names → record_get r1 k = record_get r2 k) →
  predict_features L me r1 = predict_features L me r2.
Proof.
  intros Hnames Hget.
  set (keys := "is_weekend" :: "is_holiday" :: names) in *.
  assert (H0 : agree_on L keys (frame_of_record r1) (frame_of_record r2)).
  { split; [done|]. split; [|done]. intros k Hk.
    by rewrite !series_frame_of_record, (Hget k Hk). }
  unfold predict_features. pure_simpl. rewrite Hnames.
  assert (Hw : "is_weekend" ∈ keys) by (by left).
  assert (Hh : "is_holiday" ∈ keys) by (by right; left).
  pose proof (flag_step_agree L keys _ _ "is_weekend" H0 Hw) as H1.
  destruct (if has_col (frame_of_record r1) "is_weekend" then _ else _) as [d1|e1],
           (if has_col (frame_of_record r2) "is_weekend" then _ else _) as [d2|e2];
    cbn [agree_outcome] in H1; [|done|done|by subst].
  pose proof (flag_step_agree L keys _ _ "is_holiday" H1 Hh) as H2.
  destruct (if has_col d1 "is_holiday" then _ else _) as [d1'|e1],
           (if has_col d2 "is_holiday" then _ else _) as [d2'|e2];
    cbn [agree_outcome] in H2; [|done|done|by subst].
  destruct (categorical_features me) as [cats|]; [|done].
  destruct (cast_categories_agree L keys cats d1' d2' H2) as (c1 & c2 & -> & -> & H3).
  apply select_columns_agree. eapply agree_on_subset; [|exact H3].
  intros k Hk. by do 2 right.
Qed.

Lemma record_get_cons (k' : string) (v' : cell) (r : list (string * cell)) (k : string) :
  record_get ((k', v') :: r) k = if decide (k' = k) then Some v' else record_get r k.
Proof.
  unfold record_get. rewrite !fmap_cons. cbn [fst snd col_index].
  destruct (decide (k' = k)); [done|].
  by destruct (col_index (r.*1) k).
Qed.

Lemma record_get_elem_of (r : list (string * cell)) (k : string) (v : cell) :
  NoDup (r.*1) → record_get r k = Some v ↔ (k, v) ∈ r.
Proof.
  induction r as [|[k' v'] r IH]; intros Hnd.
  { split; [done|]. intros H. by apply elem_of_nil in H. }
  rewrite fmap_cons in Hnd. apply NoDup_cons in Hnd as [Hnotin Hnd].
  rewrite record_get_cons. destruct (decide (k' = k)) as [->|Hne].
  - split.
    + intros [= ->]. by left.
    + intros [Heq|Hin]%elem_of_cons; [by injection Heq as ->|].
      destruct Hnotin. apply list_elem_of_fmap. by exists (k, v).
  - rewrite (IH Hnd). split; [by right|].
    intros [Heq|Hin]%elem_of_cons; [congruence|done].
Qed.

Lemma record_get_Permutation (r r' : list (string * cell)) (k : string) :
  NoDup (r.*1) → r ≡ₚ r' → record_get r k = record_get r' k.
Proof.
  intros Hnd Hp. assert (Hnd' : NoDup (r'.*1)) by (by rewrite <- Hp).
  apply option_eq. intros v. rewrite !record_get_elem_of by done. by rewrite Hp.
Qed.

(** X23: the matrix [predict] builds from a record depends only on the
    values the record has under the two flags and under the feature
    names of the predictor: two records that agree on these keys give the
    same matrix, or the same exception.  So the order of the keys of the
    record does not matter, and a key that is neither a flag nor a
    feature name is ignored. *)
Theorem predict_features_reads_schema_keys_only (L : Lib) (me : Predictor (Booster L))
    (names : list string) :
  feature_names me = Some names →
  (∀ r1 r2,
     (∀ k, k ∈ "is_weekend" :: "is_holiday" :: names → record_get r1 k = record_get r2 k) →
     predict_features L me r1 = predict_features L me r2) ∧
  (∀ r r', NoDup (r.*1) → r ≡ₚ r' →
     predict_features L me r = predict_features L me r') ∧
  (∀ r k v, k ∉ "is_weekend" :: "is_holiday" :: names →
     predict_features L me ((k, v) :: r) = predict_features L me r).
Proof.
  intros Hnames. split; [|split].
  - intros r1 r2 Hget. by eapply predict_features_agree.
  - intros r r' Hnd Hp. eapply predict_features_agree; [done|].
    intros k _. by apply record_get_Permutation.
  - intros r k v Hk. eapply predict_features_agree; [done|].
    intros k' Hk'. rewrite record_get_cons, decide_False; [done|]. by intros ->.
Qed.

Lemma predict_features_reads_schema_keys_only_witness :
  predict_features sample_lib
    (mkPredictor "models" None None (Some schema_feature_names)
       (Some categorical_feature_names)) extended_record
  = predict_features sample_lib
      (mkPredictor "models" None None (Some schema_feature_names)
         (Some categorical_feature_names)) sample_record.
Proof.
  destruct (predict_features_reads_schema_keys_only sample_lib
              (mkPredictor "models" None None (Some schema_feature_names)
                 (Some categorical_feature_names)) schema_feature_names eq_refl)
    as (_ & _ & Hextra).
  apply Hextra. apply (bool_decide_unpack _). vm_compute. exact I.
Defined.

(** ** A prediction request that is not JSON *)



(** ** When [_prepare_features] returns *)

Lemma cell_to_int_convertible (L : Lib) (c : cell) :
  (∃ c', cell_to_int L c = Ret c') ↔ int_convertible L c.
Proof.
  destruct c as [q| |b|s]; simpl.
  - split; [done|by eexists].
  - split; [by intros [? ?]|done].
  - split; [done|by eexists].
  - destruct (int_of_str L s); split; try done; try (by eexists); by intros [? ?].
Qed.

Lemma astype_int_convertible (L : Lib) (s s' : list cell) :
  astype_int L s = Ret s' → Forall (int_convertible L) s.
Proof.
  revert s'. induction s as [|c s IH]; intros s'; cbn [astype_int]; [done|].
  pure_simpl.
  destruct (cell_to_int L c) as [c'|] eqn:Hc; [|done].
  destruct (astype_int L s) as [r|] eqn:Hr; [|done]. intros _.
  constructor; [apply cell_to_int_convertible; by eexists|by apply (IH r)].
Qed.

Lemma assign_astype_int_flag (L : Lib) (df df' : DataFrame) (c : string) :
  assign_astype_int L df c = Ret df' → flag_col L df c.
Proof.
  intros (i & s' & Hi & Hs & _)%assign_astype_int_Ret.
  exists i. split; [done|]. apply astype_int_convertible in Hs.
  by apply (Forall_fmap (cell_at i) (int_convertible L)) in Hs.
Qed.

Lemma flag_col_other (L : Lib) (df df' : DataFrame) (c c' : string) :
  assign_astype_int L df c = Ret df' → c' ≠ c → flag_col L df' c' → flag_col L df c'.
Proof.
  intros (i & s' & Hi & _ & Hc & _ & _ & Ho)%assign_astype_int_Ret Hne (j & Hj & Hall).
  rewrite Hc in Hj. exists j. split; [done|].
  assert (Hji : j ≠ i) by (intros ->; by pose proof (col_index_inj _ _ _ _ Hj Hi)).
  apply (Forall_fmap (cell_at j) (int_convertible L)).
  apply (Forall_fmap (cell_at j) (int_convertible L)) in Hall.
  by rewrite <- (Ho j Hji).
Qed.

(** X25: [_prepare_features] returns exactly for the frames that have
    the 26 schema columns and whose two flag columns convert to
    integers; the test [if cat_feat in df.columns] of its loop does not
    make a categorical column optional.  For a frame with convertible
    flags that lacks a schema column it raises [KeyError] with a message
    that names each absent column. *)
Theorem prepare_features_returns_iff (L : Lib) (df : DataFrame) :
  ((∃ result, _prepare_features L df = Ret result) ↔
   (∀ c, c ∈ schema_feature_names → c ∈ columns df) ∧
   flag_col L df "is_weekend" ∧ flag_col L df "is_holiday") ∧
  (flag_col L df "is_weekend" → flag_col L df "is_holiday" →
   ∀ k, k ∈ schema_feature_names → k ∉ columns df →
     ∃ msg, _prepare_features L df = Raise (Exc KeyError msg) ∧ names_key msg k).
Proof.
  split; [split|].
  - intros [[[[df' X] names] cats] Hrun].
    destruct (prepare_features_steps L _ _ _ _ _ Hrun) as (df1 & df2 & H1 & H2 & H3 & H4 & _).
    pose proof (assign_astype_int_columns L _ _ _ H1) as Hc1.
    pose proof (assign_astype_int_columns L _ _ _ H2) as Hc2.
    destruct (cast_categories_Ret L _ _ _ H3) as [Hc3 _].
    split; [|split].
    + intros c Hc. revert H4. unfold select_columns.
      destruct (filter (λ c, c ∉ columns df') schema_feature_names) eqn:Hm;
        [|by destruct (_ =? _)%nat].
      intros _. rewrite <- Hc1, <- Hc2, <- Hc3.
      by apply (proj1 (filter_absent_nil _ _) Hm).
    + by eapply assign_astype_int_flag.
    + eapply (flag_col_other L df df1 "is_weekend"); [done|done|].
      by eapply assign_astype_int_flag.
  - intros (Hall & Hw & Hh).
    destruct (prepare_features_ok L df Hall Hw Hh) as (df' & X & Hrun & _). by eexists.
  - intros Hw Hh k Hk Hnk.
    destruct (assign_astype_int_ok L df "is_weekend" Hw) as (df1 & H1 & Hc1 & _ & Hkeep).
    destruct (assign_astype_int_ok L df1 "is_holiday") as (df2 & H2 & Hc2 & _);
      [by apply Hkeep|].
    destruct (cast_categories_ok L categorical_feature_names df2) as (df3 & H3 & Hc3 & _).
    unfold _prepare_features. pure_simpl. rewrite H1, H2, H3.
    change (numerical_feature_names ++ categorical_feature_names) with schema_feature_names.
    assert (Hcols : columns df3 = columns df) by congruence.
    unfold select_columns. rewrite Hcols.
    assert (Hkm : k ∈ filter (λ c, c ∉ columns df) schema_feature_names)
      by (by apply list_elem_of_filter).
    assert (Hwin : "is_weekend" ∈ schema_feature_names)
      by (unfold schema_feature_names; repeat constructor).
    pose proof (length_filter_lt (λ c, c ∉ columns df) schema_feature_names "is_weekend" Hwin)
      as Hlt.
    assert (Hsub : ∀ c, c ∈ filter (λ c, c ∉ columns df) schema_feature_names →
                        c ∈ schema_feature_names)
      by (by intros c [_ Hc]%list_elem_of_filter).
    destruct (filter (λ c, c ∉ columns df) schema_feature_names) as [|m ms];
      [by apply elem_of_nil in Hkm|].
    assert (Hlen : (length (m :: ms) =? length schema_feature_names)%nat = false).
    { apply Nat.eqb_neq. intros Heq. rewrite Heq in Hlt.
      assert (length schema_feature_names < length schema_feature_names)%nat; [|lia].
      apply Hlt. intros Hn. apply Hn. by eapply flag_col_elem. }
    rewrite Hlen. eexists. split; [reflexivity|].
    apply missing_message_names_keys.
    + apply Forall_forall. intros c Hc. apply (proj1 (elem_of_remove_dups _ _)) in Hc.
      apply Hsub in Hc. revert c Hc. apply Forall_forall.
      unfold schema_feature_names. repeat constructor.
    + by apply elem_of_remove_dups.
Qed.
